(** * smallsh: a shallow embedding of [small_shell.c]

    The shell is one POSIX process.  Its C globals, its standard input and
    the system calls it performs are threaded through a small state monad
    whose results say whether the process is still running.  Every answer
    of the operating system (the value [fork] returns, the status
    [waitpid] stores, ...) is read from an environment record, so that all
    definitions compute.

    Undefined behaviour of the C program (a NULL pointer handed to
    [strdup] or [strcmp], a store past the end of [arg_variables], a read
    of a buffer that [fgets] left unwritten) is a result of its own,
    [Faulted].  Heap allocation ([calloc], [strdup]) is assumed to
    succeed. *)

From Stdlib Require Import ZArith String Ascii Lia.
From stdpp Require Import base tactics option list strings pretty.

Open Scope Z_scope.

(** ** Constants and the command structure *)

Definition INPUT_LENGTH : Z := 2048.
Definition MAX_ARGS : Z := 512.

Definition NUL : ascii := "000"%char.
Definition newline : ascii := "010"%char.
Definition space : ascii := " "%char.
Definition hash : ascii := "#"%char.

(** One-character string holding the line feed, for message texts. *)
Definition LF : string := String newline EmptyString.

(** [struct command_line]: a [char*] is [None] when it is NULL. *)
Record command_line := mk_command_line {
  arg_variables : list (option string);   (* char* [MAX_ARGS + 1] *)
  arg_count : Z;
  input_file : option string;
  output_file : option string;
  is_background : bool
}.

(** What [calloc(1, sizeof(struct command_line))] hands back. *)
Definition calloc_command_line : command_line :=
  {| arg_variables := replicate (Z.to_nat (MAX_ARGS + 1)) None;
     arg_count := 0;
     input_file := None;
     output_file := None;
     is_background := false |}.

Inductive fault :=
| NullDeref                 (* NULL given to strdup / strcmp / chdir *)
| OutOfBounds (index : Z)   (* arg_variables[index] is outside the array *)
| Indeterminate.            (* input_buffer read although fgets wrote nothing *)

(** Result of the parser's token loop. *)
Inductive parse_result :=
| Parsed (c : command_line)
| ParseFault (f : fault)
| Unfinished.               (* the model's fuel ran out; see [parse_line_finishes] *)

(** ** C strings and [strtok] *)

(** The bytes of a buffer seen as a C string: everything before the first
    NUL. *)
Fixpoint c_str (s : string) : string :=
  match s with
  | EmptyString => EmptyString
  | String c s' => if Ascii.eqb c NUL then EmptyString else String c (c_str s')
  end.

(** [buffer[0]] of a buffer holding [s] and its terminator. *)
Definition first_byte (s : string) : ascii :=
  match s with
  | EmptyString => NUL
  | String c _ => c
  end.

(** Membership in the delimiter set [" \n"]. *)
Definition is_delim (c : ascii) : bool :=
  Ascii.eqb c space || Ascii.eqb c newline.

Fixpoint skip_delims (s : string) : string :=
  match s with
  | EmptyString => EmptyString
  | String c s' => if is_delim c then skip_delims s' else s
  end.

(** Reads one token; the second component is where the scan resumes: just
    after the delimiter that ended the token, or at the end of the
    string. *)
Fixpoint scan_token (s : string) : string * string :=
  match s with
  | EmptyString => (EmptyString, EmptyString)
  | String c s' =>
      if is_delim c then (EmptyString, s')
      else let '(t, r) := scan_token s' in (String c t, r)
  end.

(** [strtok] with its saved position made explicit: [strtok s] is the call
    on the text [s] (the buffer on the first call, the saved position on a
    call with NULL); [None] is the NULL result. *)
Definition strtok (s : string) : option (string * string) :=
  match skip_delims s with
  | EmptyString => None
  | s' => Some (scan_token s')
  end.

(** ** [fgets] *)

Fixpoint fgets_scan (room : nat) (s : string) : string * string :=
  match room with
  | O => (EmptyString, s)
  | S room' =>
      match s with
      | EmptyString => (EmptyString, EmptyString)
      | String c s' =>
          if Ascii.eqb c newline then (String c EmptyString, s')
          else let '(l, r) := fgets_scan room' s' in (String c l, r)
      end
  end.

(** [fgets(buf, size, stdin)] on the unread input: at most [size - 1]
    bytes, up to and including the first line feed.  [None] at end of
    file, where the buffer is not written. *)
Definition fgets (size : Z) (unread : string) : option (string * string) :=
  match unread with
  | EmptyString => None
  | _ => Some (fgets_scan (Z.to_nat (size - 1)) unread)
  end.

(** ** The token loop of [parse_input] *)

(** [current_command->arg_variables[i] = v], with the bounds of the
    array. *)
Definition store_arg (c : command_line) (i : Z) (v : option string)
  : fault + command_line :=
  if (0 <=? i) && (i <? Z.of_nat (length (arg_variables c))) then
    inr {| arg_variables := <[Z.to_nat i := v]> (arg_variables c);
           arg_count := arg_count c;
           input_file := input_file c;
           output_file := output_file c;
           is_background := is_background c |}
  else inl (OutOfBounds i).

Definition set_arg_count (c : command_line) (n : Z) : command_line :=
  {| arg_variables := arg_variables c;
     arg_count := n;
     input_file := input_file c;
     output_file := output_file c;
     is_background := is_background c |}.

Definition set_input_file (c : command_line) (f : option string) : command_line :=
  {| arg_variables := arg_variables c;
     arg_count := arg_count c;
     input_file := f;
     output_file := output_file c;
     is_background := is_background c |}.

Definition set_output_file (c : command_line) (f : option string) : command_line :=
  {| arg_variables := arg_variables c;
     arg_count := arg_count c;
     input_file := input_file c;
     output_file := f;
     is_background := is_background c |}.

Definition set_is_background (c : command_line) (b : bool) : command_line :=
  {| arg_variables := arg_variables c;
     arg_count := arg_count c;
     input_file := input_file c;
     output_file := output_file c;
     is_background := b |}.

(** The if/else chain of the loop body on the token [tok], with the saved
    position of [strtok] before and after. *)
Definition parse_token (fg : Z) (tok save : string) (c : command_line)
  : fault + (command_line * string) :=
  if String.eqb tok "<" then
    match strtok save with
    | None => inl NullDeref                       (* strdup(NULL) *)
    | Some (name, save') => inr (set_input_file c (Some name), save')
    end
  else if String.eqb tok ">" then
    match strtok save with
    | None => inl NullDeref
    | Some (name, save') => inr (set_output_file c (Some name), save')
    end
  else if String.eqb tok "&" then
    if fg =? 0 then inr (set_is_background c true, save)
    else inr (c, save)
  else
    match store_arg c (arg_count c) (Some tok) with
    | inl f => inl f
    | inr c' => inr (set_arg_count c' (arg_count c + 1), save)
    end.

(** [while (token) { ... }]: [token] is the loop variable, [save] the
    position [strtok(NULL, ...)] resumes from. *)
Fixpoint parse_loop (fuel : nat) (fg : Z) (token : option string)
    (save : string) (c : command_line) : parse_result :=
  match token with
  | None => Parsed c
  | Some tok =>
      match fuel with
      | O => Unfinished
      | S fuel' =>
          match parse_token fg tok save c with
          | inl f => ParseFault f
          | inr (c1, save1) =>
              match store_arg c1 (arg_count c1) None with
              | inl f => ParseFault f
              | inr c2 =>
                  match strtok save1 with
                  | None => parse_loop fuel' fg None save1 c2
                  | Some (tok', save2) => parse_loop fuel' fg (Some tok') save2 c2
                  end
              end
          end
      end
  end.

(** [input_buffer[0] == '\n' || input_buffer[0] == '#'] *)
Definition blank_or_comment (input_buffer : string) : bool :=
  Ascii.eqb (first_byte input_buffer) newline
  || Ascii.eqb (first_byte input_buffer) hash.

(** The part of [parse_input] after [fgets]: [None] is the NULL returned
    for a blank or comment line. *)
Definition parse_line (fg : Z) (input_buffer : string) : option parse_result :=
  if blank_or_comment input_buffer then None
  else
    let text := c_str input_buffer in
    Some match strtok text with
         | None => parse_loop (S (String.length text)) fg None text calloc_command_line
         | Some (tok, save) =>
             parse_loop (S (String.length text)) fg (Some tok) save calloc_command_line
         end.

(** ** The wait-status macros and the system's constants

    [<sys/wait.h>], [<signal.h>], [<fcntl.h>] and [<unistd.h>] belong to
    the platform, not to the repository; the definitions below are the
    ones of Linux with glibc. *)

Definition WTERMSIG (status : Z) : Z := Z.land status 127.
Definition WEXITSTATUS (status : Z) : Z := Z.shiftr (Z.land status 65280) 8.
Definition WIFEXITED (status : Z) : bool := WTERMSIG status =? 0.

(** [((signed char) ((status & 0x7f) + 1) >> 1) > 0] *)
Definition WIFSIGNALED (status : Z) : bool :=
  let v := Z.land status 127 + 1 in
  let signed_char := if 128 <=? v then v - 256 else v in
  0 <? Z.shiftr signed_char 1.

Definition SIGINT : Z := 2.
Definition SIGTSTP : Z := 20.
Definition SA_RESTART : Z := 268435456.
Definition WNOHANG : Z := 1.
Definition O_RDONLY : Z := 0.
Definition O_WRONLY : Z := 1.
Definition O_CREAT : Z := 64.
Definition O_TRUNC : Z := 512.
Definition STDIN_FILENO : Z := 0.
Definition STDOUT_FILENO : Z := 1.

(** ** The process: globals, input, and the calls it has made *)

Inductive sighandler := SIG_IGN | SIG_DFL | Handler_tstp.

Inductive event :=
| Printf (text : string)                           (* text put on stdout by printf *)
| Fflush
| WriteFd (fd : Z) (text : string)                 (* write(fd, text, strlen(text)) *)
| Perror (prefix : string)
| Getenv (name : string)
| Chdir (path : string) (ret : Z)
| Fork (ret : Z)
| Waitpid (pid options ret status : Z)
| Kill (pid sig : Z)
| Sigaction (signo : Z) (h : sighandler) (flags : Z)
| Open (path : string) (flags : Z) (mode : option Z) (ret : Z)
| Dup2 (oldfd newfd : Z)
| Close (fd : Z)
| Free.                                            (* empty_heap_memory *)

Record process := mk_process {
  latest_status : Z;        (* int latest_status *)
  foreground_only : Z;      (* int foreground_only *)
  unread : string;          (* what stdin still holds *)
  trace : list event        (* calls made so far, oldest first *)
}.

(** The process when [main] starts. *)
Definition initial_process (input : string) : process :=
  {| latest_status := 0; foreground_only := 0; unread := input; trace := [] |}.

Inductive outcome (A : Type) :=
| Ret (a : A)                                      (* control returns to the caller *)
| Exited (code : Z)                                (* exit(code) *)
| Execed (file : string) (argv : list string)      (* execvp replaced the image *)
| Faulted (f : fault)                              (* undefined behaviour *)
| NoFuel.                                          (* only from [Unfinished] *)
Arguments Ret {A} a.
Arguments Exited {A} code.
Arguments Execed {A} file argv.
Arguments Faulted {A} f.
Arguments NoFuel {A}.

Definition M (A : Type) : Type := process → outcome A * process.

#[global] Instance M_ret : MRet M := λ A a p, (Ret a, p).

#[global] Instance M_bind : MBind M := λ A B k m p,
  match m p with
  | (Ret a, p') => k a p'
  | (Exited code, p') => (Exited code, p')
  | (Execed file argv, p') => (Execed file argv, p')
  | (Faulted f, p') => (Faulted f, p')
  | (NoFuel, p') => (NoFuel, p')
  end.

Definition emit (e : event) : M unit := λ p,
  (Ret tt, {| latest_status := latest_status p;
              foreground_only := foreground_only p;
              unread := unread p;
              trace := trace p ++ [e] |}).

Definition get_latest_status : M Z := λ p, (Ret (latest_status p), p).
Definition get_foreground_only : M Z := λ p, (Ret (foreground_only p), p).
Definition get_unread : M string := λ p, (Ret (unread p), p).

Definition put_latest_status (v : Z) : M unit := λ p,
  (Ret tt, {| latest_status := v;
              foreground_only := foreground_only p;
              unread := unread p;
              trace := trace p |}).

Definition put_foreground_only (v : Z) : M unit := λ p,
  (Ret tt, {| latest_status := latest_status p;
              foreground_only := v;
              unread := unread p;
              trace := trace p |}).

Definition put_unread (s : string) : M unit := λ p,
  (Ret tt, {| latest_status := latest_status p;
              foreground_only := foreground_only p;
              unread := s;
              trace := trace p |}).

Definition exit {A} (code : Z) : M A := λ p, (Exited code, p).
Definition undefined {A} (f : fault) : M A := λ p, (Faulted f, p).

(** [execvp] when it succeeds: the program is replaced. *)
Definition replaced {A} (file : string) (args : list string) : M A :=
  λ p, (Execed file args, p).
Definition out_of_fuel {A} : M A := λ p, (NoFuel, p).

Definition printf (text : string) : M unit := emit (Printf text).
Definition fflush : M unit := emit Fflush.
Definition perror (s : string) : M unit := emit (Perror s).

(** What the operating system answers during one pass of the main loop. *)
Record os_env := mk_os_env {
  env_HOME : option string;          (* getenv("HOME") *)
  sys_chdir : string → Z;            (* 0, or -1 *)
  sys_fork : Z;                      (* what fork returns in this process *)
  sys_wait_status : Z;               (* stored by waitpid(spawnpid, &status, 0) *)
  sys_polls : list (Z * Z);          (* successive waitpid(-1, &status, WNOHANG):
                                        (return value, status); 0 afterwards *)
  sys_open : string → Z → Z;         (* descriptor, or -1 *)
  sys_execvp_ok : bool               (* false: execvp returns *)
}.

(** ** The functions of [small_shell.c] *)

Section Shell.

Variable os : os_env.

(** [current_command->arg_variables[i]] used as a string. *)
Definition arg_string (c : command_line) (i : nat) : M string :=
  match arg_variables c !! i with
  | Some (Some s) => mret s
  | Some None => undefined NullDeref
  | None => undefined (OutOfBounds (Z.of_nat i))
  end.

(** The vector [execvp] reads: the entries before the first NULL. *)
Fixpoint argv (slots : list (option string)) : list string :=
  match slots with
  | Some s :: rest => s :: argv rest
  | _ => []
  end.

Definition parse_input : M (option command_line) :=
  printf ": ";;
  fflush;;
  input ← get_unread;
  match fgets INPUT_LENGTH input with
  | None => undefined Indeterminate
  | Some (input_buffer, rest) =>
      put_unread rest;;
      fg ← get_foreground_only;
      match parse_line fg input_buffer with
      | None => mret None
      | Some (Parsed c) => mret (Some c)
      | Some (ParseFault f) => undefined f
      | Some Unfinished => out_of_fuel
      end
  end.

Definition empty_heap_memory (c : command_line) : M unit := emit Free.

(** The line the [status] branch of [built_in_commands] prints, if any. *)
Definition status_text (status : Z) : option string :=
  if WIFSIGNALED status then
    Some ("terminated by signal " +:+ pretty (WTERMSIG status) +:+ LF)
  else if WIFEXITED status then
    Some ("exit value " +:+ pretty (WEXITSTATUS status) +:+ LF)
  else None.

Definition built_in_commands (c : command_line) : M Z :=
  name ← arg_string c 0;
  if String.eqb name "exit" then
    empty_heap_memory c;;
    exit 0
  else if String.eqb name "cd" then
    (if arg_count c =? 1 then
       emit (Getenv "HOME");;
       match env_HOME os with
       | Some home => emit (Chdir home (sys_chdir os home))
       | None => mret tt
       end
     else
       path ← arg_string c 1;
       let result := sys_chdir os path in
       emit (Chdir path result);;
       if result =? -1 then perror "cd" else mret tt);;
    empty_heap_memory c;;
    mret 0
  else if String.eqb name "status" then
    status ← get_latest_status;
    match status_text status with
    | Some text => printf text
    | None => mret tt
    end;;
    fflush;;
    empty_heap_memory c;;
    mret 0
  else mret (-1).

Definition file_redirection (c : command_line) : M unit :=
  match input_file c with
  | Some path =>
      let input_descriptor := sys_open os path O_RDONLY in
      emit (Open path O_RDONLY None input_descriptor);;
      (if input_descriptor =? -1 then
         printf ("cannot open " +:+ path +:+ " for input" +:+ LF);;
         fflush;;
         exit 1
       else mret tt);;
      emit (Dup2 input_descriptor STDIN_FILENO);;
      emit (Close input_descriptor)
  | None =>
      if is_background c then
        let input_descriptor := sys_open os "/dev/null" O_RDONLY in
        emit (Open "/dev/null" O_RDONLY None input_descriptor);;
        (if input_descriptor =? -1 then
           printf ("open error" +:+ LF);;
           fflush;;
           exit 1
         else mret tt);;
        emit (Dup2 input_descriptor STDIN_FILENO);;
        emit (Close input_descriptor)
      else mret tt
  end;;
  match output_file c with
  | Some path =>
      let flags := Z.lor (Z.lor O_WRONLY O_CREAT) O_TRUNC in
      let output_descriptor := sys_open os path flags in
      emit (Open path flags (Some 420) output_descriptor);;    (* 0644 *)
      (if output_descriptor =? -1 then
         printf ("cannot open " +:+ path +:+ " for output" +:+ LF);;
         fflush;;
         exit 1
       else mret tt);;
      emit (Dup2 output_descriptor STDOUT_FILENO);;
      emit (Close output_descriptor)
  | None =>
      if is_background c then
        let output_descriptor := sys_open os "/dev/null" O_WRONLY in
        emit (Open "/dev/null" O_WRONLY None output_descriptor);;
        (if output_descriptor =? -1 then
           printf ("open error" +:+ LF);;
           fflush;;
           exit 1
         else mret tt);;
        emit (Dup2 output_descriptor STDOUT_FILENO);;
        emit (Close output_descriptor)
      else mret tt
  end.

Definition manage_child_process (c : command_line) (spawnpid : Z) : M unit :=
  if is_background c then
    printf ("background pid is " +:+ pretty spawnpid +:+ LF);;
    fflush
  else
    let child_status := sys_wait_status os in
    emit (Waitpid spawnpid 0 spawnpid child_status);;
    put_latest_status child_status;;
    if WIFSIGNALED child_status then
      printf ("terminated by signal " +:+ pretty (WTERMSIG child_status) +:+ LF);;
      fflush
    else mret tt.

Definition exec_commands (c : command_line) : M Z :=
  let spawnpid := sys_fork os in
  emit (Fork spawnpid);;
  if spawnpid =? -1 then
    perror "fork";;
    mret 1
  else if spawnpid =? 0 then
    (if is_background c then emit (Sigaction SIGINT SIG_IGN 0)
     else emit (Sigaction SIGINT SIG_DFL 0));;
    emit (Sigaction SIGTSTP SIG_IGN 0);;
    file_redirection c;;
    name ← arg_string c 0;
    if sys_execvp_ok os then replaced name (argv (arg_variables c))
    else
      printf (name +:+ ": no such file or directory" +:+ LF);;
      exit 1
  else
    manage_child_process c spawnpid;;
    empty_heap_memory c;;
    mret 0.

(** The loop of [background_tracker], over the answers of the successive
    non-blocking polls. *)
Fixpoint background_loop (polls : list (Z * Z)) : M unit :=
  match polls with
  | [] => emit (Waitpid (-1) WNOHANG 0 0)
  | (completed_pid, child_status) :: later =>
      emit (Waitpid (-1) WNOHANG completed_pid child_status);;
      if 0 <? completed_pid then
        (if WIFEXITED child_status then
           printf ("background pid " +:+ pretty completed_pid
                   +:+ " is done: exit value "
                   +:+ pretty (WEXITSTATUS child_status) +:+ LF)
         else if WIFSIGNALED child_status then
           printf ("background pid " +:+ pretty completed_pid
                   +:+ " is done: terminated by signal "
                   +:+ pretty (WTERMSIG child_status) +:+ LF)
         else mret tt);;
        fflush;;
        background_loop later
      else mret tt
  end.

Definition background_tracker : M unit := background_loop (sys_polls os).

(** One pass through the body of [while(true)] in [main]. *)
Definition main_iteration : M unit :=
  background_tracker;;
  current_command ← parse_input;
  match current_command with
  | None => mret tt
  | Some c =>
      builtin ← built_in_commands c;
      if builtin =? 0 then mret tt
      else exec_commands c;; mret tt
  end.

End Shell.

Definition start_message : string :=
  LF +:+ "Entering foreground-only mode (& is now ignored)" +:+ LF +:+ " ".
Definition exit_message : string :=
  LF +:+ "Exiting foreground-only mode" +:+ LF +:+ " ".

Definition handle_signal_tstp (signo : Z) : M unit :=
  fg ← get_foreground_only;
  if fg =? 0 then
    put_foreground_only 1;;
    emit (WriteFd STDOUT_FILENO (c_str start_message))
  else
    put_foreground_only 0;;
    emit (WriteFd STDOUT_FILENO (c_str exit_message)).

(** What happens to the shell, in order: a pass of the loop with the
    system's answers for it, or a SIGTSTP delivered between two passes. *)
Inductive tick :=
| Pass (os : os_env)
| Tstp.

Fixpoint main_loop (ticks : list tick) : M unit :=
  match ticks with
  | [] => mret tt
  | Pass os :: later => main_iteration os;; main_loop later
  | Tstp :: later => handle_signal_tstp SIGTSTP;; main_loop later
  end.

Definition main (ticks : list tick) : M unit :=
  emit (Sigaction SIGINT SIG_IGN 0);;
  emit (Sigaction SIGTSTP Handler_tstp SA_RESTART);;
  main_loop ticks.

(** ** Views used to state the properties *)

(** The tokens of a line: the maximal runs of characters other than space
    and line feed, in order. *)
Fixpoint tokens (s : string) : list string :=
  match s with
  | EmptyString => []
  | String c s' =>
      if is_delim c then tokens s'
      else
        match s' with
        | EmptyString => [String c EmptyString]
        | String d _ =>
            if is_delim d then String c EmptyString :: tokens s'
            else
              match tokens s' with
              | t :: ts => String c t :: ts
              | [] => [String c EmptyString]
              end
        end
  end.

Definition of_sum (r : fault + command_line) : parse_result :=
  match r with
  | inl f => ParseFault f
  | inr c => Parsed c
  end.

(** The token loop read as a recursion over the tokens still to come;
    [parse_loop_list] shows that it is the loop of [parse_loop]. *)
Fixpoint parse_list (fg : Z) (toks : list string) (c : command_line)
  : fault + command_line :=
  match toks with
  | [] => inr c
  | tok :: rest =>
      if String.eqb tok "<" then
        match rest with
        | [] => inl NullDeref
        | name :: rest' =>
            match store_arg (set_input_file c (Some name)) (arg_count c) None with
            | inl f => inl f
            | inr c2 => parse_list fg rest' c2
            end
        end
      else if String.eqb tok ">" then
        match rest with
        | [] => inl NullDeref
        | name :: rest' =>
            match store_arg (set_output_file c (Some name)) (arg_count c) None with
            | inl f => inl f
            | inr c2 => parse_list fg rest' c2
            end
        end
      else if String.eqb tok "&" then
        match store_arg (if fg =? 0 then set_is_background c true else c)
                        (arg_count c) None with
        | inl f => inl f
        | inr c2 => parse_list fg rest c2
        end
      else
        match store_arg c (arg_count c) (Some tok) with
        | inl f => inl f
        | inr c1 =>
            match store_arg (set_arg_count c1 (arg_count c + 1))
                            (arg_count c + 1) None with
            | inl f => inl f
            | inr c2 => parse_list fg rest c2
            end
        end
  end.

Definition is_redirect (tok : string) : bool :=
  String.eqb tok "<" || String.eqb tok ">".

Fixpoint take_while {A} (f : A → bool) (l : list A) : list A :=
  match l with
  | [] => []
  | x :: l' => if f x then x :: take_while f l' else []
  end.

(** How many [<] and [>] tokens stand, without interruption, at the end of
    the line. *)
Definition trailing_redirects (toks : list string) : nat :=
  length (take_while is_redirect (rev toks)).

(** Equal in every field but [is_background]. *)
Definition same_but_background (c1 c2 : command_line) : Prop :=
  arg_variables c1 = arg_variables c2 ∧ arg_count c1 = arg_count c2 ∧
  input_file c1 = input_file c2 ∧ output_file c1 = output_file c2.

(** The array has its declared size and the count leaves room for [room]
    more arguments and the terminating NULL. *)
Definition has_room (c : command_line) (room : nat) : Prop :=
  length (arg_variables c) = Z.to_nat (MAX_ARGS + 1) ∧
  0 <= arg_count c ∧ arg_count c + Z.of_nat room <= MAX_ARGS.

(** [waitpid(pid, &status, 0)]: the blocking wait for a foreground child. *)
Definition is_foreground_wait (e : event) : bool :=
  match e with
  | Waitpid pid options ret status => options =? 0
  | _ => false
  end.

(** The status stored by the latest blocking wait of a trace, 0 when there
    is none. *)
Definition fg_status (tr : list event) : Z :=
  foldl (λ acc e,
           match e with
           | Waitpid pid options ret status => if options =? 0 then status else acc
           | _ => acc
           end) 0 tr.

Definition is_kill (e : event) : bool :=
  match e with
  | Kill pid sig => true
  | _ => false
  end.

(** [m] keeps the property [I] of the process, however it ends. *)
Definition preserves {A} (I : process → Prop) (m : M A) : Prop :=
  ∀ p, I p → I (m p).2.

Definition status_is (v : Z) (p : process) : Prop := latest_status p = v.

Definition status_tracks_waits (p : process) : Prop :=
  latest_status p = fg_status (trace p).

(** The process after the prompt was printed and a line taken from the
    input. *)
Definition prompted (p : process) (rest : string) : process :=
  {| latest_status := latest_status p;
     foreground_only := foreground_only p;
     unread := rest;
     trace := (trace p ++ [Printf ": "]) ++ [Fflush] |}.

Definition add_events (p : process) (events : list event) : process :=
  {| latest_status := latest_status p;
     foreground_only := foreground_only p;
     unread := unread p;
     trace := trace p ++ events |}.

(** ** Concrete sessions *)

Definition sample_os (fork_result wait_status : Z) : os_env :=
  {| env_HOME := Some "/home/user";
     sys_chdir := λ _, -1;
     sys_fork := fork_result;
     sys_wait_status := wait_status;
     sys_polls := [];
     sys_open := λ _ _, 3;
     sys_execvp_ok := true |}.

Definition command_of (r : option parse_result) : command_line :=
  match r with
  | Some (Parsed c) => c
  | _ => calloc_command_line
  end.

Definition status_command : command_line :=
  command_of (parse_line 0 ("status" +:+ LF)).

Definition background_command : command_line :=
  command_of (parse_line 0 ("sleep 5 &" +:+ LF)).

(** The shell after one SIGTSTP, before it reads [input]. *)
Definition foreground_only_process (input : string) : process :=
  {| latest_status := 0; foreground_only := 1; unread := input; trace := [] |}.

(** [sleep 100 &] then [exit], the child 4923 still running. *)
Definition exit_session : outcome unit * process :=
  main [Pass (sample_os 4923 0); Pass (sample_os 0 0)]
       (initial_process ("sleep 100 &" +:+ LF +:+ "exit" +:+ LF)).

(** 513 one-letter arguments on one line of 1026 bytes. *)
Definition long_line : string :=
  String.concat " " (replicate 513 "a") +:+ LF.

(** ** Views for further properties *)

(** [<], [>] and [&]: the tokens the loop never stores as arguments. *)
Definition is_operator (tok : string) : bool :=
  is_redirect tok || String.eqb tok "&".

(** The array holds [args], then NULL in every slot after them, and the
    count is their number. *)
Definition null_terminated (c : command_line) (args : list string) : Prop :=
  arg_variables c =
    (Some <$> args) ++ replicate (Z.to_nat (MAX_ARGS + 1) - length args) None ∧
  arg_count c = Z.of_nat (length args) ∧
  (length args <= Z.to_nat MAX_ARGS)%nat.

Definition not_ampersand (tok : string) : bool := negb (String.eqb tok "&").

Fixpoint string_forallb (f : ascii → bool) (s : string) : bool :=
  match s with
  | EmptyString => true
  | String ch s' => f ch && string_forallb f s'
  end.

(** A word: not empty, and free of spaces, line feeds and NUL bytes. *)
Definition is_word (w : string) : bool :=
  negb (String.eqb w "") &&
  string_forallb (λ ch, negb (is_delim ch) && negb (Ascii.eqb ch NUL)) w.

Definition no_newline (s : string) : bool :=
  string_forallb (λ ch, negb (Ascii.eqb ch newline)) s.

Definition is_waitpid (e : event) : bool :=
  match e with
  | Waitpid pid options ret status => true
  | _ => false
  end.

Definition is_printf (e : event) : bool :=
  match e with
  | Printf text => true
  | _ => false
  end.

(** A poll that found a finished child. *)
Definition reaped (poll : Z * Z) : bool := 0 <? poll.1.

(** The children one call of [background_tracker] reaps: the polls up to
    the first that finds none. *)
Definition reaped_children (polls : list (Z * Z)) : list (Z * Z) :=
  take_while reaped polls.

(** What [background_loop] prints for one reaped child, if anything. *)
Definition completion_message (poll : Z * Z) : option string :=
  if WIFEXITED poll.2 then
    Some ("background pid " +:+ pretty poll.1 +:+ " is done: exit value "
          +:+ pretty (WEXITSTATUS poll.2) +:+ LF)
  else if WIFSIGNALED poll.2 then
    Some ("background pid " +:+ pretty poll.1
          +:+ " is done: terminated by signal "
          +:+ pretty (WTERMSIG poll.2) +:+ LF)
  else None.

(** The calls a built-in may make. *)
Definition is_builtin_event (e : event) : bool :=
  match e with
  | Printf _ | Fflush | Perror _ | Getenv _ | Chdir _ _ | Free => true
  | _ => false
  end.

(** The calls the child makes between its signal set-up and [execvp]. *)
Definition is_redirection_event (e : event) : bool :=
  match e with
  | Open _ _ _ _ | Dup2 _ _ | Close _ | Printf _ | Fflush => true
  | _ => false
  end.

(** The trace is [before] followed by events that all satisfy [allowed]. *)
Definition appends (allowed : event → bool) (before : list event)
    (p : process) : Prop :=
  ∃ events, trace p = before ++ events ∧ forallb allowed events = true.

Definition dup2_onto (fd : Z) (e : event) : bool :=
  match e with
  | Dup2 oldfd newfd => newfd =? fd
  | _ => false
  end.

Definition opened_descriptor (e : event) : option Z :=
  match e with
  | Open path flags mode ret => Some ret
  | _ => None
  end.

Definition duplicated_descriptor (e : event) : option Z :=
  match e with
  | Dup2 oldfd newfd => Some oldfd
  | _ => None
  end.

Definition closed_descriptor (e : event) : option Z :=
  match e with
  | Close fd => Some fd
  | _ => None
  end.

(** How the shell itself may end: it returns to its loop, calls [exit(0)],
    or runs into undefined behaviour. *)
Definition shell_outcome {A} (o : outcome A) : Prop :=
  match o with
  | Ret _ => True
  | Exited code => code = 0
  | Faulted _ => True
  | Execed _ _ => False
  | NoFuel => False
  end.

Definition ends_as_shell {A} (m : M A) : Prop := ∀ p, shell_outcome (m p).1.

(** A pass in which this process is not the child of its own [fork]. *)
Definition in_parent (t : tick) : Prop :=
  match t with
  | Pass os => sys_fork os ≠ 0
  | Tstp => True
  end.

Definition mode_is (v : Z) (p : process) : Prop := foreground_only p = v.

Fixpoint tstp_count (ticks : list tick) : nat :=
  match ticks with
  | [] => 0
  | Tstp :: later => S (tstp_count later)
  | Pass _ :: later => tstp_count later
  end.

(** ** The tokens [strtok] yields *)

Lemma scan_token_tokens (s : string) (c : ascii) :
  is_delim c = false →
  tokens (String c s) = (scan_token (String c s)).1 :: tokens (scan_token (String c s)).2.
Proof.
  revert c. induction s as [|d s IH]; intros c Hc.
  - simpl. rewrite Hc. reflexivity.
  - specialize (IH d).
    change (tokens (String c (String d s)))
      with (if is_delim c then tokens (String d s)
            else if is_delim d then String c EmptyString :: tokens (String d s)
                 else match tokens (String d s) with
                      | t :: ts => String c t :: ts
                      | [] => [String c EmptyString]
                      end).
    change (scan_token (String c (String d s)))
      with (if is_delim c then (EmptyString, String d s)
            else let '(t, r) := scan_token (String d s) in (String c t, r)).
    rewrite Hc.
    destruct (is_delim d) eqn:Hd.
    + cbn [scan_token tokens]. rewrite ?Hd. cbn. rewrite ?Hd. reflexivity.
    + rewrite IH by reflexivity.
      destruct (scan_token (String d s)) as [t r]. reflexivity.
Qed.

Lemma skip_delims_tokens (s : string) : tokens (skip_delims s) = tokens s.
Proof.
  induction s as [|c s IH]; [reflexivity|].
  simpl skip_delims. destruct (is_delim c) eqn:Hc.
  - rewrite IH. simpl. rewrite Hc. reflexivity.
  - reflexivity.
Qed.

Lemma skip_delims_head (s : string) (c : ascii) (s' : string) :
  skip_delims s = String c s' → is_delim c = false.
Proof.
  induction s as [|d s IH]; simpl; [discriminate|].
  destruct (is_delim d) eqn:Hd; [exact IH|].
  intros [= -> _]. exact Hd.
Qed.

Lemma skip_delims_length (s : string) :
  (String.length (skip_delims s) <= String.length s)%nat.
Proof.
  induction s as [|d s IH]; simpl; [lia|].
  destruct (is_delim d); simpl; lia.
Qed.

Lemma scan_token_length (s : string) :
  (String.length (scan_token s).2 <= String.length s)%nat.
Proof.
  induction s as [|d s IH]; simpl; [lia|].
  destruct (is_delim d); simpl; [lia|].
  destruct (scan_token s) as [t r]. simpl in *. lia.
Qed.

Lemma strtok_None (s : string) : strtok s = None → tokens s = [].
Proof.
  unfold strtok. intros H. rewrite <- skip_delims_tokens.
  destruct (skip_delims s); [reflexivity|discriminate].
Qed.

Lemma scan_token_shorter (c : ascii) (s : string) :
  (String.length (scan_token (String c s)).2 <= String.length s)%nat.
Proof.
  pose proof (scan_token_length s) as Hl.
  cbn [scan_token]. destruct (is_delim c); [simpl; lia|].
  destruct (scan_token s) as [t r]. exact Hl.
Qed.

Lemma strtok_Some (s tok save : string) :
  strtok s = Some (tok, save) →
  tokens s = tok :: tokens save ∧ (String.length save < String.length s)%nat.
Proof.
  unfold strtok. intros H.
  pose proof (skip_delims_length s) as Hlen.
  rewrite <- skip_delims_tokens.
  destruct (skip_delims s) as [|c s'] eqn:Hs; [discriminate|].
  apply skip_delims_head in Hs as Hc.
  assert (Hst : scan_token (String c s') = (tok, save)) by congruence.
  pose proof (scan_token_shorter c s') as Hl.
  rewrite (scan_token_tokens _ _ Hc), Hst. rewrite Hst in Hl.
  split; [reflexivity|]. simpl in *. lia.
Qed.

Lemma parse_loop_list (fuel : nat) (fg : Z) (tok save : string) (c : command_line) :
  (String.length save < fuel)%nat →
  parse_loop fuel fg (Some tok) save c = of_sum (parse_list fg (tok :: tokens save) c).
Proof.
  revert tok save c.
  induction fuel as [|fuel IH]; intros tok save c Hfuel; [lia|].
  assert (Hnext : ∀ save1 c2, (String.length save1 <= String.length save)%nat →
    match strtok save1 with
    | None => parse_loop fuel fg None save1 c2
    | Some (tok', save2) => parse_loop fuel fg (Some tok') save2 c2
    end = of_sum (parse_list fg (tokens save1) c2)).
  { intros save1 c2 Hle. destruct (strtok save1) as [[tok' save2]|] eqn:Hs.
    - apply strtok_Some in Hs as [-> Hlt]. apply IH. lia.
    - apply strtok_None in Hs as ->. destruct fuel; reflexivity. }
  cbn [parse_loop parse_list]. unfold parse_token.
  destruct (String.eqb tok "<").
  { destruct (strtok save) as [[name save']|] eqn:Hs.
    - apply strtok_Some in Hs as [-> Hlt].
      change (arg_count (set_input_file c (Some name))) with (arg_count c).
      destruct (store_arg _ _ None); [reflexivity|]. apply Hnext. lia.
    - apply strtok_None in Hs as ->. reflexivity. }
  destruct (String.eqb tok ">").
  { destruct (strtok save) as [[name save']|] eqn:Hs.
    - apply strtok_Some in Hs as [-> Hlt].
      change (arg_count (set_output_file c (Some name))) with (arg_count c).
      destruct (store_arg _ _ None); [reflexivity|]. apply Hnext. lia.
    - apply strtok_None in Hs as ->. reflexivity. }
  destruct (String.eqb tok "&").
  { destruct (fg =? 0).
    - change (arg_count (set_is_background c true)) with (arg_count c).
      destruct (store_arg _ _ None); [reflexivity|]. apply Hnext. lia.
    - destruct (store_arg _ _ None); [reflexivity|]. apply Hnext. lia. }
  destruct (store_arg c (arg_count c) (Some tok)) as [f|c1]; [reflexivity|].
  change (arg_count (set_arg_count c1 (arg_count c + 1))) with (arg_count c + 1).
  destruct (store_arg _ _ None); [reflexivity|]. apply Hnext. lia.
Qed.

Lemma parse_line_tokens (fg : Z) (input_buffer : string) :
  parse_line fg input_buffer =
  if blank_or_comment input_buffer then None
  else Some (of_sum (parse_list fg (tokens (c_str input_buffer)) calloc_command_line)).
Proof.
  unfold parse_line.
  destruct (blank_or_comment input_buffer); [reflexivity|]. f_equal.
  destruct (strtok (c_str input_buffer)) as [[tok save]|] eqn:Hs.
  - apply strtok_Some in Hs as [-> Hlt]. apply parse_loop_list. lia.
  - apply strtok_None in Hs as ->. reflexivity.
Qed.

(** ** Stores into [arg_variables] *)

Lemma store_arg_in_bounds (c : command_line) (i : Z) (v : option string) :
  length (arg_variables c) = Z.to_nat (MAX_ARGS + 1) → 0 <= i <= MAX_ARGS →
  store_arg c i v =
  inr {| arg_variables := <[Z.to_nat i := v]> (arg_variables c);
         arg_count := arg_count c;
         input_file := input_file c;
         output_file := output_file c;
         is_background := is_background c |}.
Proof.
  intros Hlen Hi. unfold store_arg. rewrite Hlen.
  unfold MAX_ARGS in *.
  destruct (Z.leb_spec 0 i); [|lia].
  destruct (Z.ltb_spec i (Z.of_nat (Z.to_nat (512 + 1)))); [reflexivity|lia].
Qed.

Lemma store_arg_inr (c c' : command_line) (i : Z) (v : option string) :
  store_arg c i v = inr c' →
  length (arg_variables c') = length (arg_variables c) ∧
  arg_count c' = arg_count c ∧ input_file c' = input_file c ∧
  output_file c' = output_file c ∧ is_background c' = is_background c ∧
  0 <= i < Z.of_nat (length (arg_variables c)).
Proof.
  unfold store_arg. destruct (0 <=? i) eqn:H0; [|discriminate].
  destruct (i <? _) eqn:H1; [|discriminate].
  apply Z.leb_le in H0. apply Z.ltb_lt in H1.
  intros [= <-]. cbn [arg_variables arg_count input_file output_file is_background].
  rewrite length_insert. repeat split; lia.
Qed.

(** ** Redirection tokens at the end of a line *)

Lemma take_while_app {A} (f : A → bool) (l1 l2 : list A) :
  take_while f (l1 ++ l2) =
  if forallb f l1 then l1 ++ take_while f l2 else take_while f l1.
Proof.
  induction l1 as [|x l1 IH]; [reflexivity|].
  simpl. destruct (f x); [|reflexivity]. simpl. rewrite IH.
  destruct (forallb f l1); reflexivity.
Qed.

Lemma take_while_all {A} (f : A → bool) (l : list A) :
  forallb f l = true → take_while f l = l.
Proof.
  induction l as [|x l IH]; [reflexivity|]. simpl.
  destruct (f x); [|discriminate]. simpl. intros H. rewrite IH; auto.
Qed.

Lemma forallb_rev {A} (f : A → bool) (l : list A) :
  forallb f (rev l) = forallb f l.
Proof.
  induction l as [|x l IH]; [reflexivity|].
  simpl. rewrite List.forallb_app, IH. simpl.
  destruct (f x), (forallb f l); reflexivity.
Qed.

Lemma trailing_redirects_cons (tok : string) (toks : list string) :
  trailing_redirects (tok :: toks) =
  if forallb is_redirect toks
  then (if is_redirect tok then S (length toks) else length toks)
  else trailing_redirects toks.
Proof.
  unfold trailing_redirects. simpl rev. rewrite take_while_app.
  rewrite forallb_rev.
  destruct (forallb is_redirect toks); [|reflexivity].
  rewrite length_app, length_rev. simpl.
  destruct (is_redirect tok); simpl; lia.
Qed.

Lemma trailing_redirects_all (toks : list string) :
  forallb is_redirect toks = true → trailing_redirects toks = length toks.
Proof.
  intros H. unfold trailing_redirects.
  rewrite take_while_all, length_rev; [reflexivity|].
  rewrite forallb_rev. exact H.
Qed.

Lemma trailing_redirects_other (tok : string) (toks : list string) :
  is_redirect tok = false →
  trailing_redirects (tok :: toks) = trailing_redirects toks.
Proof.
  intros H. rewrite trailing_redirects_cons, H.
  destruct (forallb is_redirect toks) eqn:Hall; [|reflexivity].
  symmetry. apply trailing_redirects_all, Hall.
Qed.

Lemma trailing_redirects_pair (tok name : string) (toks : list string) :
  is_redirect tok = true →
  Nat.odd (trailing_redirects (tok :: name :: toks)) =
  Nat.odd (trailing_redirects toks).
Proof.
  intros H. rewrite trailing_redirects_cons, H.
  cbn [forallb]. destruct (is_redirect name) eqn:Hn.
  - cbn [andb]. destruct (forallb is_redirect toks) eqn:Hall.
    + rewrite (trailing_redirects_all _ Hall). cbn [length].
      rewrite Nat.odd_succ, Nat.even_succ. reflexivity.
    + rewrite trailing_redirects_cons, Hall. reflexivity.
  - cbn [andb]. rewrite trailing_redirects_other by exact Hn. reflexivity.
Qed.

(** ** The token loop *)

(** Induction following the loop: a token is handled alone, or together
    with the token after it. *)
Lemma tokens_ind (P : list string → Prop) :
  P [] →
  (∀ tok rest,
      P rest → (∀ name rest', rest = name :: rest' → P rest') → P (tok :: rest)) →
  ∀ toks, P toks.
Proof.
  intros Hnil Hcons toks.
  enough (P toks ∧ ∀ name rest', toks = name :: rest' → P rest') by tauto.
  induction toks as [|tok rest [IH1 IH2]]; [split; [exact Hnil|discriminate]|].
  split; [apply Hcons; assumption|].
  intros name rest' [= _ <-]. exact IH1.
Qed.

Lemma has_room_store (c : command_line) (room : nat) (v : option string) :
  has_room c room →
  ∃ c', store_arg c (arg_count c) v = inr c' ∧ has_room c' room ∧
        arg_count c' = arg_count c ∧ is_background c' = is_background c.
Proof.
  intros (Hlen & H0 & Hroom).
  rewrite store_arg_in_bounds by (try assumption; lia).
  eexists. split; [reflexivity|]. unfold has_room.
  cbn [arg_variables arg_count is_background]. rewrite length_insert.
  repeat split; assumption.
Qed.

Lemma has_room_less (c : command_line) (n m : nat) :
  has_room c n → (m <= n)%nat → has_room c m.
Proof. unfold has_room. intros (? & ? & ?) ?. repeat split; [assumption..|lia]. Qed.

Lemma parse_list_redirects (fg : Z) (toks : list string) :
  ∀ c, has_room c (length toks) →
  if Nat.odd (trailing_redirects toks)
  then parse_list fg toks c = inl NullDeref
  else ∃ c', parse_list fg toks c = inr c'.
Proof.
  induction toks as [|tok rest IH1 IH2] using tokens_ind; intros c Hroom.
  { cbn. eauto. }
  cbn [parse_list length] in *.
  assert (Hredirect : ∀ set : command_line → option string → command_line,
    (∀ c0 v, arg_variables (set c0 v) = arg_variables c0 ∧
             arg_count (set c0 v) = arg_count c0) →
    is_redirect tok = true →
    if Nat.odd (trailing_redirects (tok :: rest))
    then match rest with
         | [] => inl NullDeref
         | name :: rest' =>
             match store_arg (set c (Some name)) (arg_count c) None with
             | inl f => inl f
             | inr c2 => parse_list fg rest' c2
             end
         end = inl NullDeref
    else ∃ c', match rest with
               | [] => inl NullDeref
               | name :: rest' =>
                   match store_arg (set c (Some name)) (arg_count c) None with
                   | inl f => inl f
                   | inr c2 => parse_list fg rest' c2
                   end
               end = inr c').
  { intros set Hset Hred. destruct rest as [|name rest'].
    - rewrite trailing_redirects_cons, Hred. reflexivity.
    - rewrite (trailing_redirects_pair _ _ _ Hred).
      destruct (Hset c (Some name)) as [Hv Hc].
      assert (Hr : has_room (set c (Some name)) (length rest')).
      { destruct Hroom as (Hlen & H0 & Hle). unfold has_room.
        rewrite Hv, Hc. cbn [length] in Hle. repeat split; [assumption..|lia]. }
      destruct (has_room_store _ _ None Hr) as (c2 & Hst & Hr2 & _).
      rewrite Hc in Hst. rewrite Hst. apply (IH2 name rest' eq_refl), Hr2. }
  destruct (String.eqb tok "<") eqn:Hlt.
  { apply (Hredirect set_input_file); [split; reflexivity|].
    unfold is_redirect. rewrite Hlt. reflexivity. }
  destruct (String.eqb tok ">") eqn:Hgt.
  { apply (Hredirect set_output_file); [split; reflexivity|].
    unfold is_redirect. rewrite Hlt, Hgt. reflexivity. }
  rewrite trailing_redirects_other
    by (unfold is_redirect; rewrite Hlt, Hgt; reflexivity).
  destruct (String.eqb tok "&").
  { assert (Hr : has_room (if fg =? 0 then set_is_background c true else c)
                          (length rest)).
    { destruct (fg =? 0); apply (has_room_less _ (S (length rest))); try lia;
        [destruct Hroom as (? & ? & ?); repeat split; assumption|assumption]. }
    destruct (has_room_store _ _ None Hr) as (c2 & Hst & Hr2 & _).
    replace (arg_count (if fg =? 0 then set_is_background c true else c))
      with (arg_count c) in Hst by (destruct (fg =? 0); reflexivity).
    rewrite Hst. apply IH1, Hr2. }
  destruct (has_room_store _ _ (Some tok) Hroom) as (c1 & Hst1 & Hr1 & Hc1 & _).
  rewrite Hst1.
  assert (Hr : has_room (set_arg_count c1 (arg_count c + 1)) (length rest)).
  { destruct Hr1 as (Hlen & H0 & Hle). unfold has_room.
    cbn [set_arg_count arg_variables arg_count].
    repeat split; [assumption|lia|lia]. }
  destruct (has_room_store _ _ None Hr) as (c2 & Hst & Hr2 & _).
  cbn [set_arg_count arg_count] in Hst. rewrite Hst. apply IH1, Hr2.
Qed.

Lemma store_arg_same (c1 c2 : command_line) (i : Z) (v : option string) :
  same_but_background c1 c2 →
  match store_arg c1 i v, store_arg c2 i v with
  | inl f1, inl f2 => f1 = f2
  | inr a, inr b => same_but_background a b
  | _, _ => False
  end.
Proof.
  intros (Hv & Hc & Hi & Ho). unfold store_arg. rewrite Hv.
  destruct (_ && _); [|reflexivity].
  unfold same_but_background. cbn. tauto.
Qed.

(** Two runs of the loop on the same tokens, whatever the mode of each. *)
Lemma parse_list_same (fg1 fg2 : Z) (toks : list string) :
  ∀ c1 c2, same_but_background c1 c2 →
  match parse_list fg1 toks c1, parse_list fg2 toks c2 with
  | inl f1, inl f2 => f1 = f2
  | inr a, inr b => same_but_background a b
  | _, _ => False
  end.
Proof.
  induction toks as [|tok rest IH1 IH2] using tokens_ind; intros c1 c2 Hsame.
  { exact Hsame. }
  assert (Hstep : ∀ (a b : command_line) (i : Z) (v : option string)
                    (l : list string),
    (∀ x y, same_but_background x y →
       match parse_list fg1 l x, parse_list fg2 l y with
       | inl f1, inl f2 => f1 = f2
       | inr a, inr b => same_but_background a b
       | _, _ => False
       end) →
    same_but_background a b →
    match
      match store_arg a i v with
      | inl f => inl f | inr c' => parse_list fg1 l c' end,
      match store_arg b i v with
      | inl f => inl f | inr c' => parse_list fg2 l c' end
    with
    | inl f1, inl f2 => f1 = f2
    | inr a, inr b => same_but_background a b
    | _, _ => False
    end).
  { intros a b i v l IH Hab.
    pose proof (store_arg_same a b i v Hab) as Hst.
    destruct (store_arg a i v), (store_arg b i v); try contradiction;
      [exact Hst|apply IH, Hst]. }
  pose proof Hsame as (Hv & Hc & Hi & Ho).
  cbn [parse_list]. rewrite <- Hc.
  destruct (String.eqb tok "<").
  { destruct rest as [|name rest']; [reflexivity|].
    apply Hstep; [apply (IH2 name rest' eq_refl)|].
    unfold same_but_background. cbn. tauto. }
  destruct (String.eqb tok ">").
  { destruct rest as [|name rest']; [reflexivity|].
    apply Hstep; [apply (IH2 name rest' eq_refl)|].
    unfold same_but_background. cbn. tauto. }
  destruct (String.eqb tok "&").
  { apply Hstep; [exact IH1|].
    destruct (fg1 =? 0), (fg2 =? 0); unfold same_but_background; cbn; tauto. }
  pose proof (store_arg_same c1 c2 (arg_count c1) (Some tok) Hsame) as Hst.
  destruct (store_arg c1 _ _) as [f1|a], (store_arg c2 _ _) as [f2|b];
    try contradiction; [exact Hst|].
  apply Hstep; [exact IH1|].
  destruct Hst as (? & ? & ? & ?). unfold same_but_background. cbn. tauto.
Qed.

(** In foreground-only mode the loop never sets the background flag. *)
Lemma parse_list_foreground_only (fg : Z) (toks : list string) :
  fg ≠ 0 → ∀ c c', parse_list fg toks c = inr c' →
  is_background c' = is_background c.
Proof.
  intros Hfg.
  induction toks as [|tok rest IH1 IH2] using tokens_ind; intros c c'.
  { intros [= <-]. reflexivity. }
  assert (Hstep : ∀ (a : command_line) (i : Z) (v : option string)
                    (l : list string),
    (∀ x y, parse_list fg l x = inr y → is_background y = is_background x) →
    is_background a = is_background c →
    match store_arg a i v with
    | inl f => inl f | inr c2 => parse_list fg l c2 end = inr c' →
    is_background c' = is_background c).
  { intros a i v l IH Ha. destruct (store_arg a i v) as [f|c2] eqn:Hst;
      [discriminate|].
    apply store_arg_inr in Hst as (_ & _ & _ & _ & Hb & _).
    intros H. apply IH in H. congruence. }
  cbn [parse_list].
  destruct (String.eqb tok "<").
  { destruct rest as [|name rest']; [discriminate|].
    apply Hstep; [apply (IH2 name rest' eq_refl)|reflexivity]. }
  destruct (String.eqb tok ">").
  { destruct rest as [|name rest']; [discriminate|].
    apply Hstep; [apply (IH2 name rest' eq_refl)|reflexivity]. }
  destruct (String.eqb tok "&").
  { apply Hstep; [exact IH1|].
    destruct (Z.eqb_spec fg 0); [contradiction|reflexivity]. }
  destruct (store_arg c _ (Some tok)) as [f|c1] eqn:Hst; [discriminate|].
  apply store_arg_inr in Hst as (_ & _ & _ & _ & Hb & _).
  apply Hstep; [exact IH1|exact Hb].
Qed.

(** A loop that ends without fault leaves the count within the limit. *)
Lemma parse_list_count (fg : Z) (toks : list string) :
  ∀ c c', parse_list fg toks c = inr c' →
  length (arg_variables c) = Z.to_nat (MAX_ARGS + 1) →
  0 <= arg_count c <= MAX_ARGS →
  length (arg_variables c') = Z.to_nat (MAX_ARGS + 1) ∧
  0 <= arg_count c' <= MAX_ARGS.
Proof.
  induction toks as [|tok rest IH1 IH2] using tokens_ind; intros c c'.
  { intros [= <-]. tauto. }
  assert (Hstep : ∀ (a : command_line) (v : option string) (l : list string),
    (∀ x y, parse_list fg l x = inr y →
       length (arg_variables x) = Z.to_nat (MAX_ARGS + 1) →
       0 <= arg_count x <= MAX_ARGS →
       length (arg_variables y) = Z.to_nat (MAX_ARGS + 1) ∧
       0 <= arg_count y <= MAX_ARGS) →
    match store_arg a (arg_count a) v with
    | inl f => inl f | inr c2 => parse_list fg l c2 end = inr c' →
    length (arg_variables a) = Z.to_nat (MAX_ARGS + 1) →
    0 <= arg_count a →
    length (arg_variables c') = Z.to_nat (MAX_ARGS + 1) ∧
    0 <= arg_count c' <= MAX_ARGS).
  { intros a v l IH. destruct (store_arg a _ v) as [f|c2] eqn:Hst;
      [discriminate|].
    apply store_arg_inr in Hst as (Hl & Hn & _ & _ & _ & Hi).
    intros H Hlen H0. apply IH in H; [exact H|congruence|].
    rewrite Hlen in Hi. unfold MAX_ARGS in *. lia. }
  cbn [parse_list].
  destruct (String.eqb tok "<").
  { destruct rest as [|name rest']; [discriminate|].
    intros H Hlen Hn.
    apply (Hstep (set_input_file c (Some name)) None rest'
                 (IH2 name rest' eq_refl)); [exact H|exact Hlen|apply Hn]. }
  destruct (String.eqb tok ">").
  { destruct rest as [|name rest']; [discriminate|].
    intros H Hlen Hn.
    apply (Hstep (set_output_file c (Some name)) None rest'
                 (IH2 name rest' eq_refl)); [exact H|exact Hlen|apply Hn]. }
  destruct (String.eqb tok "&").
  { intros H Hlen Hn.
    apply (Hstep (if fg =? 0 then set_is_background c true else c) None rest IH1);
      destruct (fg =? 0); first [exact H|exact Hlen|apply Hn]. }
  destruct (store_arg c _ (Some tok)) as [f|c1] eqn:Hst; [discriminate|].
  apply store_arg_inr in Hst as (Hl & Hn1 & _ & _ & _ & Hi).
  intros H Hlen Hn.
  apply (Hstep (set_arg_count c1 (arg_count c + 1)) None rest IH1);
    [exact H|cbn; congruence|cbn; lia].
Qed.

(** A parse that yields a Command leaves its count within the limit. *)
Lemma parsed_count_within_limit (fg : Z) (input_buffer : string)
    (c : command_line) :
  parse_line fg input_buffer = Some (Parsed c) →
  length (arg_variables c) = Z.to_nat (MAX_ARGS + 1) ∧
  0 <= arg_count c <= MAX_ARGS.
Proof.
  rewrite parse_line_tokens.
  destruct (blank_or_comment input_buffer); [discriminate|].
  destruct (parse_list _ _ _) as [f|c'] eqn:Hlist; [discriminate|].
  intros [= <-]. apply (parse_list_count _ _ _ _ Hlist).
  - cbn. rewrite length_replicate. reflexivity.
  - cbn. unfold MAX_ARGS. lia.
Qed.

(** ** Properties kept by the process *)

Section Preserves.

Variable I : process → Prop.

Lemma preserves_ret {A} (a : A) : preserves I (mret a).
Proof. intros p H. exact H. Qed.

Lemma preserves_bind {A B} (m : M A) (k : A → M B) :
  preserves I m → (∀ a, preserves I (k a)) → preserves I (m ≫= k).
Proof.
  intros Hm Hk p H. specialize (Hm p H).
  unfold mbind, M_bind. destruct (m p) as [[a| | | |] p']; try exact Hm.
  apply Hk, Hm.
Qed.

Lemma preserves_exit {A} (code : Z) : preserves I (@exit A code).
Proof. intros p H. exact H. Qed.

Lemma preserves_undefined {A} (f : fault) : preserves I (@undefined A f).
Proof. intros p H. exact H. Qed.

Lemma preserves_replaced {A} (file : string) (args : list string) :
  preserves I (@replaced A file args).
Proof. intros p H. exact H. Qed.

Lemma preserves_out_of_fuel {A} : preserves I (@out_of_fuel A).
Proof. intros p H. exact H. Qed.

Lemma preserves_get_latest_status : preserves I get_latest_status.
Proof. intros p H. exact H. Qed.

Lemma preserves_get_foreground_only : preserves I get_foreground_only.
Proof. intros p H. exact H. Qed.

Lemma preserves_get_unread : preserves I get_unread.
Proof. intros p H. exact H. Qed.

End Preserves.

Create HintDb preserves.
#[export] Hint Resolve preserves_ret preserves_exit preserves_undefined
  preserves_replaced preserves_out_of_fuel preserves_get_latest_status
  preserves_get_foreground_only preserves_get_unread : preserves.

(** Splits a goal [preserves I m] along the binds and branches of [m]. *)
Ltac preserves_step :=
  match goal with
  | |- preserves _ (_ ≫= _) => apply preserves_bind; [|intros ?]
  | |- preserves _ (if ?b then _ else _) => destruct b
  | |- preserves _ (match ?x with _ => _ end) => destruct x
  | |- preserves _ _ => solve [auto with preserves]
  end.

Lemma status_is_emit (v : Z) (e : event) : preserves (status_is v) (emit e).
Proof. intros p H. exact H. Qed.

Lemma status_is_put_unread (v : Z) (s : string) :
  preserves (status_is v) (put_unread s).
Proof. intros p H. exact H. Qed.

Lemma status_is_put_foreground_only (v fg : Z) :
  preserves (status_is v) (put_foreground_only fg).
Proof. intros p H. exact H. Qed.

#[export] Hint Resolve status_is_emit status_is_put_unread
  status_is_put_foreground_only : preserves.

Lemma fg_status_app (tr : list event) (e : event) :
  fg_status (tr ++ [e]) =
  match e with
  | Waitpid pid options ret status => if options =? 0 then status else fg_status tr
  | _ => fg_status tr
  end.
Proof. unfold fg_status. rewrite foldl_app. reflexivity. Qed.

Lemma tracks_emit (e : event) :
  is_foreground_wait e = false → preserves status_tracks_waits (emit e).
Proof.
  intros He p H. unfold status_tracks_waits in *. cbn. rewrite fg_status_app.
  destruct e; try exact H. cbn in He. rewrite He. exact H.
Qed.

Lemma tracks_put_unread (s : string) :
  preserves status_tracks_waits (put_unread s).
Proof. intros p H. exact H. Qed.

Lemma tracks_put_foreground_only (fg : Z) :
  preserves status_tracks_waits (put_foreground_only fg).
Proof. intros p H. exact H. Qed.

(** The blocking wait and the assignment that follows it, taken together. *)
Lemma tracks_wait_then_put {A} (pid ret status : Z) (k : M A) :
  preserves status_tracks_waits k →
  preserves status_tracks_waits
    (emit (Waitpid pid 0 ret status);; put_latest_status status;; k).
Proof.
  intros Hk p H. unfold mbind, M_bind. cbn.
  apply Hk. unfold status_tracks_waits. cbn. rewrite fg_status_app. reflexivity.
Qed.

#[export] Hint Resolve tracks_put_unread tracks_put_foreground_only : preserves.
#[export] Hint Extern 1 (preserves status_tracks_waits (emit _)) =>
  apply tracks_emit; reflexivity : preserves.

Section Functions.

Variable os : os_env.

Lemma arg_string_preserves I c i : preserves I (arg_string c i).
Proof. unfold arg_string. repeat preserves_step. Qed.
#[local] Hint Resolve arg_string_preserves : preserves.

Lemma parse_input_status v : preserves (status_is v) parse_input.
Proof. unfold parse_input, printf, fflush. repeat preserves_step. Qed.

Lemma built_in_commands_status v c :
  preserves (status_is v) (built_in_commands os c).
Proof.
  unfold built_in_commands, empty_heap_memory, printf, fflush, perror.
  repeat preserves_step.
Qed.

Lemma background_loop_status v polls :
  preserves (status_is v) (background_loop polls).
Proof.
  induction polls as [|[pid st] later IH]; cbn [background_loop];
    unfold printf, fflush; repeat preserves_step.
Qed.

Lemma file_redirection_status v c :
  preserves (status_is v) (file_redirection os c).
Proof. unfold file_redirection, printf, fflush. repeat preserves_step. Qed.

Lemma exec_commands_background_status v c :
  is_background c = true → preserves (status_is v) (exec_commands os c).
Proof.
  intros Hbg. pose proof (file_redirection_status v c).
  unfold exec_commands, manage_child_process, empty_heap_memory, printf,
    fflush, perror.
  rewrite Hbg. repeat preserves_step.
Qed.

Lemma exec_commands_fork_failure_status v c :
  sys_fork os = -1 → preserves (status_is v) (exec_commands os c).
Proof.
  intros Hfork. unfold exec_commands, perror. rewrite Hfork, Z.eqb_refl.
  repeat preserves_step.
Qed.

Lemma parse_input_tracks : preserves status_tracks_waits parse_input.
Proof. unfold parse_input, printf, fflush. repeat preserves_step. Qed.

Lemma built_in_commands_tracks c :
  preserves status_tracks_waits (built_in_commands os c).
Proof.
  unfold built_in_commands, empty_heap_memory, printf, fflush, perror.
  repeat preserves_step.
Qed.

Lemma background_loop_tracks polls :
  preserves status_tracks_waits (background_loop polls).
Proof.
  induction polls as [|[pid st] later IH]; cbn [background_loop];
    unfold printf, fflush; repeat preserves_step.
Qed.

Lemma file_redirection_tracks c :
  preserves status_tracks_waits (file_redirection os c).
Proof. unfold file_redirection, printf, fflush. repeat preserves_step. Qed.

Lemma manage_child_process_tracks c spawnpid :
  preserves status_tracks_waits (manage_child_process os c spawnpid).
Proof.
  unfold manage_child_process, printf, fflush.
  destruct (is_background c); [repeat preserves_step|].
  apply tracks_wait_then_put. repeat preserves_step.
Qed.

Lemma exec_commands_tracks c :
  preserves status_tracks_waits (exec_commands os c).
Proof.
  pose proof (file_redirection_tracks c).
  pose proof (manage_child_process_tracks c (sys_fork os)).
  unfold exec_commands, empty_heap_memory, printf, fflush, perror.
  repeat preserves_step.
Qed.

Lemma main_iteration_tracks : preserves status_tracks_waits (main_iteration os).
Proof.
  pose proof parse_input_tracks.
  pose proof (background_loop_tracks (sys_polls os)).
  unfold main_iteration, background_tracker.
  repeat preserves_step; try apply built_in_commands_tracks;
    try apply exec_commands_tracks.
Qed.

End Functions.

Lemma handle_signal_tstp_tracks signo :
  preserves status_tracks_waits (handle_signal_tstp signo).
Proof. unfold handle_signal_tstp. repeat preserves_step. Qed.

Lemma main_loop_tracks ticks : preserves status_tracks_waits (main_loop ticks).
Proof.
  induction ticks as [|[os|] later IH]; cbn [main_loop].
  - auto with preserves.
  - apply preserves_bind; [apply main_iteration_tracks|intros; exact IH].
  - apply preserves_bind; [apply handle_signal_tstp_tracks|intros; exact IH].
Qed.

Lemma main_tracks ticks input :
  status_tracks_waits (main ticks (initial_process input)).2.
Proof.
  pose proof (main_loop_tracks ticks).
  assert (preserves status_tracks_waits (main ticks))
    by (unfold main; repeat preserves_step).
  apply H0. reflexivity.
Qed.

Lemma fg_status_no_wait (tr : list event) :
  Forall (λ e, is_foreground_wait e = false) tr → fg_status tr = 0.
Proof.
  induction tr as [|e tr IH] using rev_ind; [reflexivity|].
  rewrite Forall_app, Forall_singleton. intros [Htr He].
  rewrite fg_status_app. destruct e; auto. cbn in He. rewrite He. auto.
Qed.

(* lemmas *)
(** ** [parse_input] and the built-ins *)

Lemma parse_line_finishes (fg : Z) (input_buffer : string) :
  parse_line fg input_buffer ≠ Some Unfinished.
Proof.
  rewrite parse_line_tokens. destruct (blank_or_comment _); [discriminate|].
  destruct (parse_list _ _ _); discriminate.
Qed.

Lemma parse_input_unfold (p : process) :
  parse_input p =
  match fgets INPUT_LENGTH (unread p) with
  | None => (Faulted Indeterminate, prompted p (unread p))
  | Some (input_buffer, rest) =>
      (match parse_line (foreground_only p) input_buffer with
       | None => Ret None
       | Some (Parsed c) => Ret (Some c)
       | Some (ParseFault f) => Faulted f
       | Some Unfinished => NoFuel
       end, prompted p rest)
  end.
Proof.
  unfold parse_input, mbind, M_bind. cbn.
  destruct (fgets INPUT_LENGTH (unread p)) as [[input_buffer rest]|];
    [|reflexivity].
  cbn. destruct (parse_line _ _) as [[| |]|]; reflexivity.
Qed.

Lemma parse_input_command (p p1 : process) (c : command_line) :
  parse_input p = (Ret (Some c), p1) →
  ∃ input_buffer rest,
    fgets INPUT_LENGTH (unread p) = Some (input_buffer, rest) ∧
    p1 = prompted p rest ∧
    blank_or_comment input_buffer = false ∧
    parse_list (foreground_only p) (tokens (c_str input_buffer))
               calloc_command_line = inr c.
Proof.
  rewrite parse_input_unfold.
  destruct (fgets _ _) as [[input_buffer rest]|]; [|discriminate].
  rewrite parse_line_tokens.
  destruct (blank_or_comment input_buffer) eqn:Hblank; [discriminate|].
  destruct (parse_list _ _ _) as [f|c'] eqn:Hlist; [discriminate|].
  intros [= <- <-]. exists input_buffer, rest. auto.
Qed.

Lemma parse_list_mode (fg1 fg2 : Z) (toks : list string) :
  (fg1 =? 0) = (fg2 =? 0) →
  ∀ c, parse_list fg1 toks c = parse_list fg2 toks c.
Proof.
  intros Hmode.
  induction toks as [|tok rest IH1 IH2] using tokens_ind; intros c;
    [reflexivity|].
  cbn [parse_list]. rewrite Hmode.
  destruct (String.eqb tok "<").
  { destruct rest as [|name rest']; [reflexivity|].
    destruct (store_arg _ _ _); [reflexivity|apply (IH2 name rest' eq_refl)]. }
  destruct (String.eqb tok ">").
  { destruct rest as [|name rest']; [reflexivity|].
    destruct (store_arg _ _ _); [reflexivity|apply (IH2 name rest' eq_refl)]. }
  destruct (String.eqb tok "&").
  { destruct (store_arg _ _ _); [reflexivity|apply IH1]. }
  destruct (store_arg _ _ _); [reflexivity|].
  destruct (store_arg _ _ _); [reflexivity|apply IH1].
Qed.

Lemma has_room_calloc (n : nat) :
  (n <= Z.to_nat MAX_ARGS)%nat → has_room calloc_command_line n.
Proof.
  intros Hn. unfold has_room. cbn [calloc_command_line arg_variables arg_count].
  rewrite length_replicate. unfold MAX_ARGS in *. repeat split; lia.
Qed.

Lemma built_in_exit (os : os_env) (c : command_line) (p : process) :
  arg_variables c !! 0%nat = Some (Some "exit") →
  built_in_commands os c p = (Exited 0, add_events p [Free]).
Proof.
  intros H. unfold built_in_commands, arg_string. rewrite H. reflexivity.
Qed.

Lemma built_in_status (os : os_env) (c : command_line) (p : process) :
  arg_variables c !! 0%nat = Some (Some "status") →
  built_in_commands os c p =
  (Ret 0, add_events p (match status_text (latest_status p) with
                        | Some text => [Printf text]
                        | None => []
                        end ++ [Fflush; Free])).
Proof.
  intros H. unfold built_in_commands, arg_string. rewrite H.
  unfold mbind, M_bind, add_events. cbn.
  destruct (status_text (latest_status p)); cbn; rewrite <- ?app_assoc;
    try rewrite app_nil_r; reflexivity.
Qed.

(** In the child, [exec_commands] never returns to the loop: the child
    becomes the program, or ends with [exit(1)]. *)
Lemma child_never_returns (os : os_env) (c : command_line) (p : process) :
  sys_fork os = 0 →
  is_Some (argv (arg_variables c) !! 0%nat) →
  match (exec_commands os c p).1 with
  | Execed file args => sys_execvp_ok os = true ∧ args = argv (arg_variables c)
  | Exited code => code = 1
  | _ => False
  end.
Proof.
  intros Hfork [name Hname].
  assert (Harg : arg_variables c !! 0%nat = Some (Some name)).
  { destruct (arg_variables c) as [|[s|] slots]; try discriminate.
    injection Hname as <-. reflexivity. }
  unfold exec_commands, file_redirection, arg_string, printf, fflush,
    mbind, M_bind.
  rewrite Hfork, Harg. cbn.
  destruct (is_background c), (input_file c), (output_file c); cbn;
    repeat match goal with
           | |- context [sys_open os ?path ?flags =? -1] =>
               destruct (sys_open os path flags =? -1); cbn
           end;
    try reflexivity;
    destruct (sys_execvp_ok os); cbn; auto.
Qed.

(** ** The claims *)

(** C1.  The Foreground Status [latest_status] changes only when a
    foreground child has been waited for.  No dispatch through
    [built_in_commands] (exit, cd, a failing cd, status, or any other
    name) changes it, and no launch of a background command changes it.
    Over every run of [main] it is the status stored by the latest
    blocking [waitpid], and 0 when there was none.  As long as no blocking
    wait has happened, the status built-in prints the line
    "exit value 0". *)
Theorem latest_status_follows_foreground_waits :
  (∀ os c p, latest_status (built_in_commands os c p).2 = latest_status p) ∧
  (∀ os c p, is_background c = true →
             latest_status (exec_commands os c p).2 = latest_status p) ∧
  (∀ ticks input,
      latest_status (main ticks (initial_process input)).2 =
      fg_status (trace (main ticks (initial_process input)).2)) ∧
  (∀ ticks input os c,
      Forall (λ e, is_foreground_wait e = false)
             (trace (main ticks (initial_process input)).2) →
      arg_variables c !! 0%nat = Some (Some "status") →
      built_in_commands os c (main ticks (initial_process input)).2 =
      (Ret 0, add_events (main ticks (initial_process input)).2
                         [Printf ("exit value 0" +:+ LF); Fflush; Free])).
Proof.
  split; [|split; [|split]].
  - intros os c p. apply (built_in_commands_status os (latest_status p) c p).
    reflexivity.
  - intros os c p Hbg.
    apply (exec_commands_background_status os (latest_status p) c Hbg p).
    reflexivity.
  - intros ticks input. apply main_tracks.
  - intros ticks input os c Hnone Hname.
    rewrite (built_in_status os c _ Hname).
    pose proof (main_tracks ticks input) as Htracks.
    unfold status_tracks_waits in Htracks.
    rewrite (fg_status_no_wait _ Hnone) in Htracks. rewrite Htracks.
    reflexivity.
Qed.

Lemma latest_status_follows_foreground_waits_witness :
  latest_status (exec_commands (sample_os 4923 0) background_command
                               (initial_process "")).2 = 0 ∧
  built_in_commands (sample_os 0 0) status_command
    (main [Pass (sample_os 0 0); Pass (sample_os 4923 0)]
          (initial_process ("cd /nonexistent" +:+ LF +:+ "sleep 5 &" +:+ LF))).2 =
  (Ret 0,
   add_events
     (main [Pass (sample_os 0 0); Pass (sample_os 4923 0)]
           (initial_process ("cd /nonexistent" +:+ LF +:+ "sleep 5 &" +:+ LF))).2
     [Printf ("exit value 0" +:+ LF); Fflush; Free]).
Proof.
  destruct latest_status_follows_foreground_waits as (_ & Hbg & _ & Hstatus).
  split.
  - apply (Hbg (sample_os 4923 0) background_command (initial_process "")).
    vm_compute. reflexivity.
  - apply Hstatus.
    + vm_compute. repeat constructor.
    + vm_compute. reflexivity.
Defined.

(** C2 (the code departs from the claim).  Claimed: on exit the shell
    first sends a termination signal to every child it still tracks, then
    ends with status 0.  In the session that starts [sleep 100 &] and then
    reads [exit], the shell ends with status 0, but the calls it made are
    exactly the ones listed: child 4923 was forked and never waited for,
    and there is no [kill] among them. *)
Theorem exit_sends_no_signal :
  exit_session.1 = Exited 0 ∧
  trace exit_session.2 =
    [Sigaction SIGINT SIG_IGN 0; Sigaction SIGTSTP Handler_tstp SA_RESTART;
     Waitpid (-1) WNOHANG 0 0; Printf ": "; Fflush;
     Fork 4923; Printf ("background pid is 4923" +:+ LF); Fflush; Free;
     Waitpid (-1) WNOHANG 0 0; Printf ": "; Fflush;
     Free] ∧
  forallb (λ e, negb (is_kill e)) (trace exit_session.2) = true.
Proof. vm_compute. auto. Qed.

Lemma built_in_commands_other (os : os_env) (c : command_line) (p : process)
    (name : string) :
  arg_variables c !! 0%nat = Some (Some name) →
  name ≠ "exit" → name ≠ "cd" → name ≠ "status" →
  built_in_commands os c p = (Ret (-1), p).
Proof.
  intros Hname Hexit Hcd Hstatus. unfold built_in_commands, arg_string.
  rewrite Hname. unfold mbind, M_bind, mret, M_ret.
  destruct (String.eqb_spec name "exit"); [contradiction|].
  destruct (String.eqb_spec name "cd"); [contradiction|].
  destruct (String.eqb_spec name "status"); [contradiction|].
  reflexivity.
Qed.

(** C3.  In foreground-only mode (the flag is not 0 when the line is
    parsed) a line ending in the token [&] gives a command whose
    background flag is false.  When the pass of the main loop that reads
    the line dispatches it as an external command (its name is none of
    exit, cd, status) and [fork] succeeds, the pass makes the blocking
    [waitpid] on the child before control returns to the loop, prints no
    "background pid is" message, and the loop goes on from there. *)
Theorem foreground_only_runs_ampersand_line_in_foreground
    (os : os_env) (p0 p1 p2 : process) (input_buffer rest name : string)
    (c : command_line) (later : list tick) :
  background_tracker os p0 = (Ret tt, p1) →
  foreground_only p1 ≠ 0 →
  fgets INPUT_LENGTH (unread p1) = Some (input_buffer, rest) →
  last (tokens (c_str input_buffer)) = Some "&" →
  parse_input p1 = (Ret (Some c), p2) →
  arg_variables c !! 0%nat = Some (Some name) →
  name ≠ "exit" → name ≠ "cd" → name ≠ "status" →
  sys_fork os ≠ -1 → sys_fork os ≠ 0 →
  is_background c = false ∧
  ∃ events,
    main_iteration os p0 =
      (Ret tt,
       {| latest_status := sys_wait_status os;
          foreground_only := foreground_only p2;
          unread := unread p2;
          trace := trace p2 ++ events |}) ∧
    main_loop (Pass os :: later) p0 =
      main_loop later
        {| latest_status := sys_wait_status os;
           foreground_only := foreground_only p2;
           unread := unread p2;
           trace := trace p2 ++ events |} ∧
    events =
      [Fork (sys_fork os);
       Waitpid (sys_fork os) 0 (sys_fork os) (sys_wait_status os)] ++
      (if WIFSIGNALED (sys_wait_status os)
       then [Printf ("terminated by signal "
                     +:+ pretty (WTERMSIG (sys_wait_status os)) +:+ LF);
             Fflush]
       else []) ++
      [Free] ∧
    ∀ pid : Z, ¬ In (Printf ("background pid is " +:+ pretty pid +:+ LF)) events.
Proof.
  intros Htracker Hfg Hfgets Hlast Hparse Hname Hexit Hcd Hstatus Hfail Hchild.
  assert (Hbg : is_background c = false).
  { pose proof Hparse as Hp.
    apply parse_input_command in Hp
      as (buffer & rest' & Hf & -> & Hblank & Hlist).
    apply (parse_list_foreground_only _ _ Hfg) in Hlist. exact Hlist. }
  assert (Hexec : exec_commands os c p2 =
    (Ret 0,
     {| latest_status := sys_wait_status os;
        foreground_only := foreground_only p2;
        unread := unread p2;
        trace := trace p2 ++
          [Fork (sys_fork os);
           Waitpid (sys_fork os) 0 (sys_fork os) (sys_wait_status os)] ++
          (if WIFSIGNALED (sys_wait_status os)
           then [Printf ("terminated by signal "
                         +:+ pretty (WTERMSIG (sys_wait_status os)) +:+ LF);
                 Fflush]
           else []) ++
          [Free] |})).
  { unfold exec_commands, manage_child_process, empty_heap_memory, printf,
      fflush, mbind, M_bind.
    destruct (Z.eqb_spec (sys_fork os) (-1)); [contradiction|].
    destruct (Z.eqb_spec (sys_fork os) 0); [contradiction|].
    rewrite Hbg. cbn.
    destruct (WIFSIGNALED (sys_wait_status os)); cbn;
      rewrite <- ?app_assoc; reflexivity. }
  assert (Hiter : main_iteration os p0 =
    (Ret tt,
     {| latest_status := sys_wait_status os;
        foreground_only := foreground_only p2;
        unread := unread p2;
        trace := trace p2 ++
          [Fork (sys_fork os);
           Waitpid (sys_fork os) 0 (sys_fork os) (sys_wait_status os)] ++
          (if WIFSIGNALED (sys_wait_status os)
           then [Printf ("terminated by signal "
                         +:+ pretty (WTERMSIG (sys_wait_status os)) +:+ LF);
                 Fflush]
           else []) ++
          [Free] |})).
  { unfold main_iteration, mbind, M_bind.
    rewrite Htracker, Hparse.
    rewrite (built_in_commands_other os c p2 name Hname Hexit Hcd Hstatus).
    change (-1 =? 0) with false. cbv beta iota. unfold mbind, M_bind.
    rewrite Hexec. reflexivity. }
  split; [exact Hbg|]. eexists.
  split; [exact Hiter|]. split; [|split; [reflexivity|]].
  - cbn [main_loop]. unfold mbind at 1, M_bind at 1. rewrite Hiter. reflexivity.
  - intros pid. destruct (WIFSIGNALED (sys_wait_status os)); cbn;
      intuition discriminate.
Qed.

Lemma foreground_only_runs_ampersand_line_in_foreground_witness :
  is_background (command_of (parse_line 1 ("sleep 5 &" +:+ LF))) = false ∧
  main_iteration (sample_os 4923 0)
                 (foreground_only_process ("sleep 5 &" +:+ LF)) =
  (Ret tt,
   {| latest_status := 0; foreground_only := 1; unread := "";
      trace := [Waitpid (-1) WNOHANG 0 0; Printf ": "; Fflush;
                Fork 4923; Waitpid 4923 0 4923 0; Free] |}).
Proof.
  pose proof (foreground_only_runs_ampersand_line_in_foreground
                (sample_os 4923 0)
                (foreground_only_process ("sleep 5 &" +:+ LF))
                (add_events (foreground_only_process ("sleep 5 &" +:+ LF))
                            [Waitpid (-1) WNOHANG 0 0])
                (prompted
                   (add_events (foreground_only_process "")
                               [Waitpid (-1) WNOHANG 0 0]) "")
                ("sleep 5 &" +:+ LF) "" "sleep"
                (command_of (parse_line 1 ("sleep 5 &" +:+ LF))) []) as H.
  destruct H as (Hbg & events & Hiter & _ & Hevents & _).
  - vm_compute. reflexivity.
  - vm_compute. discriminate.
  - vm_compute. reflexivity.
  - vm_compute. reflexivity.
  - vm_compute. reflexivity.
  - vm_compute. reflexivity.
  - discriminate.
  - discriminate.
  - discriminate.
  - vm_compute. discriminate.
  - vm_compute. discriminate.
  - split; [exact Hbg|]. rewrite Hiter, Hevents. vm_compute. reflexivity.
Defined.

(** C5.  When [fork] fails, [exec_commands] reports it with
    [perror("fork")] and returns 1, [latest_status] is still what it was
    when the pass of the loop began, and the loop goes on with the next
    pass. *)
Theorem fork_failure_keeps_status_and_loop
    (os : os_env) (c : command_line) (p0 p1 p2 p : process)
    (later : list tick) :
  sys_fork os = -1 →
  background_tracker os p0 = (Ret tt, p1) →
  parse_input p1 = (Ret (Some c), p2) →
  built_in_commands os c p2 = (Ret (-1), p) →
  exec_commands os c p = (Ret 1, add_events p [Fork (-1); Perror "fork"]) ∧
  latest_status (add_events p [Fork (-1); Perror "fork"]) = latest_status p0 ∧
  main_loop (Pass os :: later) p0 =
  main_loop later (add_events p [Fork (-1); Perror "fork"]).
Proof.
  intros Hfork Htracker Hparse Hbuiltin.
  assert (Hexec : exec_commands os c p =
                  (Ret 1, add_events p [Fork (-1); Perror "fork"])).
  { unfold exec_commands, perror, mbind, M_bind. rewrite Hfork. cbn.
    unfold add_events. rewrite <- app_assoc. reflexivity. }
  split; [exact Hexec|]. split.
  - cbn [add_events latest_status].
    pose proof (built_in_commands_status os (latest_status p2) c p2 eq_refl) as H3.
    pose proof (parse_input_status (latest_status p1) p1 eq_refl) as H2.
    pose proof (background_loop_status (latest_status p0) (sys_polls os) p0 eq_refl)
      as H1.
    unfold background_tracker in Htracker.
    rewrite Hbuiltin in H3. rewrite Hparse in H2. rewrite Htracker in H1.
    unfold status_is in *. cbn [snd] in *. congruence.
  - cbn [main_loop]. unfold main_iteration, mbind, M_bind.
    rewrite Htracker, Hparse, Hbuiltin. change (-1 =? 0) with false.
    cbv beta iota. unfold mbind, M_bind. rewrite Hexec. reflexivity.
Qed.

Lemma fork_failure_keeps_status_and_loop_witness :
  main_loop [Pass (sample_os (-1) 0)] (initial_process ("ls" +:+ LF)) =
  (Ret tt,
   {| latest_status := 0; foreground_only := 0; unread := "";
      trace := [Waitpid (-1) WNOHANG 0 0; Printf ": "; Fflush;
                Fork (-1); Perror "fork"] |}).
Proof.
  pose proof (fork_failure_keeps_status_and_loop
                (sample_os (-1) 0)
                (command_of (parse_line 0 ("ls" +:+ LF)))
                (initial_process ("ls" +:+ LF))
                (add_events (initial_process ("ls" +:+ LF))
                            [Waitpid (-1) WNOHANG 0 0])
                (add_events (initial_process "")
                            [Waitpid (-1) WNOHANG 0 0; Printf ": "; Fflush])
                (add_events (initial_process "")
                            [Waitpid (-1) WNOHANG 0 0; Printf ": "; Fflush])
                []) as H.
  destruct H as (_ & _ & H).
  - reflexivity.
  - vm_compute. reflexivity.
  - vm_compute. reflexivity.
  - vm_compute. reflexivity.
  - rewrite H. vm_compute. reflexivity.
Defined.

(** C6, counterexample.  What the handler writes for a toggle is not the
    bare message followed by a line feed, neither when entering nor when
    leaving the mode. *)
Lemma toggle_messages_not_bare :
  trace (handle_signal_tstp SIGTSTP (initial_process "")).2 ≠
    [WriteFd STDOUT_FILENO
           ("Entering foreground-only mode (& is now ignored)" +:+ LF)] ∧
  trace (handle_signal_tstp SIGTSTP (foreground_only_process "")).2 ≠
    [WriteFd STDOUT_FILENO ("Exiting foreground-only mode" +:+ LF)].
Proof. split; vm_compute; discriminate. Qed.

(** C6, amended.  The handler writes, in one [write] to standard output,
    a line feed, then "Entering foreground-only mode (& is now ignored)"
    when it turns the mode on or "Exiting foreground-only mode" when it
    turns it off, then a line feed and one space. *)
Theorem toggle_messages_text (p : process) :
  handle_signal_tstp SIGTSTP p =
  (Ret tt,
   {| latest_status := latest_status p;
      foreground_only := if foreground_only p =? 0 then 1 else 0;
      unread := unread p;
      trace := trace p ++
        [WriteFd STDOUT_FILENO
           (if foreground_only p =? 0
            then LF +:+ "Entering foreground-only mode (& is now ignored)"
                    +:+ LF +:+ " "
            else LF +:+ "Exiting foreground-only mode" +:+ LF +:+ " ")] |}).
Proof.
  unfold handle_signal_tstp, mbind, M_bind. cbn.
  destruct (foreground_only p =? 0); reflexivity.
Qed.

(** C7 (the code departs from the claim).  Claimed: no input line yields
    a Command with zero arguments.  The line that holds only [&] is
    neither blank nor a comment for [parse_input]; it yields a Command
    with [arg_count] 0 and an empty argument vector, and the pass of the
    main loop that reads it hands the NULL [arg_variables[0]] to
    [strcmp]. *)
Theorem ampersand_line_yields_empty_command :
  ∃ c, parse_line 0 ("&" +:+ LF) = Some (Parsed c) ∧
       arg_count c = 0 ∧ argv (arg_variables c) = [] ∧
       is_background c = true ∧
       (main_iteration (sample_os 4923 0) (initial_process ("&" +:+ LF))).1
       = Faulted NullDeref.
Proof. eexists. vm_compute. auto. Qed.

(** C8, counterexample.  The same text [sleep 5 &] is parsed to two
    different Commands by two processes that differ only in
    [foreground_only]. *)
Lemma parse_depends_on_mode :
  ∃ c1 c2,
    (parse_input (initial_process ("sleep 5 &" +:+ LF))).1 = Ret (Some c1) ∧
    (parse_input (foreground_only_process ("sleep 5 &" +:+ LF))).1
      = Ret (Some c2) ∧
    is_background c1 = true ∧ is_background c2 = false.
Proof. do 2 eexists. vm_compute. auto. Qed.

(** C8, amended.  Two runs of [parse_input] on the same unread input give
    the same result whenever [foreground_only] is zero in both or
    non-zero in both, whatever the rest of the process state.  When the
    modes differ the two results still agree on the argument array, the
    argument count and the input and output files; only the background
    flag can differ. *)
Theorem parse_deterministic_given_mode (p1 p2 : process) :
  unread p1 = unread p2 →
  ((foreground_only p1 =? 0) = (foreground_only p2 =? 0) →
   (parse_input p1).1 = (parse_input p2).1) ∧
  match (parse_input p1).1, (parse_input p2).1 with
  | Ret (Some c1), Ret (Some c2) =>
      arg_variables c1 = arg_variables c2 ∧ arg_count c1 = arg_count c2 ∧
      input_file c1 = input_file c2 ∧ output_file c1 = output_file c2
  | Ret None, Ret None => True
  | Faulted f1, Faulted f2 => f1 = f2
  | _, _ => False
  end.
Proof.
  intros Hin. rewrite !parse_input_unfold, <- Hin.
  destruct (fgets INPUT_LENGTH (unread p1)) as [[input_buffer rest]|];
    [|cbn; auto].
  cbn [fst]. rewrite !parse_line_tokens.
  destruct (blank_or_comment input_buffer); [cbn; auto|]. split.
  - intros Hmode. rewrite (parse_list_mode _ _ _ Hmode). reflexivity.
  - pose proof (parse_list_same (foreground_only p1) (foreground_only p2)
                  (tokens (c_str input_buffer)) calloc_command_line
                  calloc_command_line) as H.
    destruct (parse_list (foreground_only p1) _ _),
             (parse_list (foreground_only p2) _ _); cbn;
      apply H; repeat split.
Qed.

Lemma parse_deterministic_given_mode_witness :
  (parse_input (initial_process ("ls -l > out" +:+ LF))).1 =
  (parse_input {| latest_status := 256; foreground_only := 0;
                  unread := "ls -l > out" +:+ LF;
                  trace := [Fork 4923] |}).1.
Proof.
  pose proof (parse_deterministic_given_mode
                (initial_process ("ls -l > out" +:+ LF))
                {| latest_status := 256; foreground_only := 0;
                   unread := "ls -l > out" +:+ LF; trace := [Fork 4923] |})
    as H.
  destruct H as [H _]; [reflexivity|].
  apply H. reflexivity.
Defined.

(** C9 (the code departs from the claim).  Claimed: at most 512
    arguments are stored and every store stays inside [arg_variables].
    A line of 513 one-letter arguments is 1026 bytes long and is read
    whole by [fgets]; on it the loop stores the terminating NULL at index
    513 of the 513-slot array. *)
Theorem long_line_overflows_arg_variables :
  String.length long_line = 1026%nat ∧
  fgets INPUT_LENGTH long_line = Some (long_line, "") ∧
  length (tokens long_line) = 513%nat ∧
  parse_line 0 long_line = Some (ParseFault (OutOfBounds 513)) ∧
  (parse_input (initial_process long_line)).1 = Faulted (OutOfBounds 513).
Proof. vm_compute. auto. Qed.

(** C10, counterexample.  The last token of [cat < <] is a bare [<], yet
    no NULL reaches [strdup]: the second [<] is taken as the file name of
    the first. *)
Lemma redirect_as_file_name_is_safe :
  last (tokens ("cat < <" +:+ LF)) = Some "<" ∧
  ∃ c, parse_line 0 ("cat < <" +:+ LF) = Some (Parsed c) ∧
       input_file c = Some "<".
Proof. split; [reflexivity|]. eexists. vm_compute. auto. Qed.

(** C10, amended.  For a line of at most 512 tokens, [parse_input] hands
    the NULL of [strtok] to [strdup] exactly when the line is neither
    blank nor a comment and ends in an odd number of consecutive [<] or
    [>] tokens, that is, when its last token is a [<] or [>] that is not
    itself the file name of the operator before it.  In every other case
    parsing ends without fault. *)
Theorem null_dereference_iff_odd_trailing_redirects
    (fg : Z) (input_buffer : string) :
  (length (tokens (c_str input_buffer)) <= Z.to_nat MAX_ARGS)%nat →
  (parse_line fg input_buffer = Some (ParseFault NullDeref) ↔
   blank_or_comment input_buffer = false ∧
   Nat.odd (trailing_redirects (tokens (c_str input_buffer))) = true) ∧
  (parse_line fg input_buffer ≠ Some (ParseFault NullDeref) →
   parse_line fg input_buffer = None ∨
   ∃ c, parse_line fg input_buffer = Some (Parsed c)).
Proof.
  intros Hlen. rewrite parse_line_tokens.
  pose proof (parse_list_redirects fg (tokens (c_str input_buffer))
                calloc_command_line (has_room_calloc _ Hlen)) as H.
  destruct (blank_or_comment input_buffer).
  { split; [split; [discriminate|intros [? _]; discriminate]|auto]. }
  destruct (Nat.odd _).
  - rewrite H. cbn. split; [tauto|]. intros Hne. contradiction.
  - destruct H as [c ->]. cbn. split.
    + split; [discriminate|intros [_ ?]; discriminate].
    + intros _. right. eauto.
Qed.

Lemma null_dereference_iff_odd_trailing_redirects_witness :
  parse_line 0 ("sort < in >" +:+ LF) = Some (ParseFault NullDeref).
Proof.
  pose proof (null_dereference_iff_odd_trailing_redirects
                0 ("sort < in >" +:+ LF)) as H.
  destruct H as [[_ H] _].
  - vm_compute. lia.
  - apply H. split; reflexivity.
Defined.

(** ** Further properties of the parser and the dispatcher *)

Lemma argv_null_terminated (args : list string) (n : nat) :
  argv ((Some <$> args) ++ replicate n None) = args.
Proof.
  induction args as [|a args IH]; cbn.
  - destruct n; reflexivity.
  - rewrite IH. reflexivity.
Qed.

Lemma null_terminated_argv (c : command_line) (args : list string) :
  null_terminated c args → argv (arg_variables c) = args.
Proof. intros (-> & _ & _). apply argv_null_terminated. Qed.

Lemma null_terminated_calloc : null_terminated calloc_command_line [].
Proof. repeat split; cbn; unfold MAX_ARGS; lia. Qed.

Lemma null_terminated_store_null (c : command_line) (args : list string) :
  null_terminated c args →
  ∃ c', store_arg c (arg_count c) None = inr c' ∧ null_terminated c' args ∧
        input_file c' = input_file c ∧ output_file c' = output_file c ∧
        is_background c' = is_background c.
Proof.
  intros (Hv & Hn & Hle).
  assert (Hlen : length (arg_variables c) = Z.to_nat (MAX_ARGS + 1)).
  { rewrite Hv, length_app, length_fmap, length_replicate.
    unfold MAX_ARGS in *. lia. }
  rewrite store_arg_in_bounds by (try assumption; unfold MAX_ARGS in *; lia).
  eexists. split; [reflexivity|]. cbn. repeat split; try assumption.
  rewrite Hn, Nat2Z.id, Hv.
  rewrite insert_app_r_alt by (rewrite length_fmap; lia).
  rewrite length_fmap, Nat.sub_diag.
  destruct (Z.to_nat (MAX_ARGS + 1) - length args)%nat eqn:Hk;
    [unfold MAX_ARGS in *; lia|reflexivity].
Qed.

Lemma null_terminated_store_arg (c : command_line) (args : list string)
    (tok : string) :
  null_terminated c args → (length args < Z.to_nat MAX_ARGS)%nat →
  ∃ c1 c2,
    store_arg c (arg_count c) (Some tok) = inr c1 ∧
    store_arg (set_arg_count c1 (arg_count c + 1)) (arg_count c + 1) None
      = inr c2 ∧
    null_terminated c2 (args ++ [tok]) ∧
    input_file c2 = input_file c ∧ output_file c2 = output_file c ∧
    is_background c2 = is_background c.
Proof.
  intros (Hv & Hn & Hle) Hlt.
  assert (Hlen : length (arg_variables c) = Z.to_nat (MAX_ARGS + 1)).
  { rewrite Hv, length_app, length_fmap, length_replicate.
    unfold MAX_ARGS in *. lia. }
  rewrite store_arg_in_bounds by (try assumption; unfold MAX_ARGS in *; lia).
  set (c1 := {| arg_variables := <[Z.to_nat (arg_count c) := Some tok]> (arg_variables c);
                arg_count := arg_count c;
                input_file := input_file c;
                output_file := output_file c;
                is_background := is_background c |}).
  assert (Hnt : null_terminated (set_arg_count c1 (arg_count c + 1))
                                (args ++ [tok])).
  { unfold null_terminated. cbn [set_arg_count c1 arg_variables arg_count].
    rewrite length_app. cbn [length]. split; [|split; lia].
    rewrite Hn, Nat2Z.id, Hv.
    rewrite insert_app_r_alt by (rewrite length_fmap; lia).
    rewrite length_fmap, Nat.sub_diag, fmap_app, <- app_assoc.
    cbn [fmap list_fmap app].
    destruct (Z.to_nat (MAX_ARGS + 1) - length args)%nat eqn:Hk;
      [unfold MAX_ARGS in *; lia|].
    cbn. repeat f_equal. lia. }
  destruct (null_terminated_store_null _ _ Hnt) as (c2 & Hst & Hnt2 & Hi & Ho & Hb).
  change (arg_count (set_arg_count c1 (arg_count c + 1)))
    with (arg_count c + 1) in Hst.
  exists c1, c2. split; [reflexivity|]. split; [exact Hst|].
  split; [exact Hnt2|]. split; [exact Hi|]. split; [exact Ho|exact Hb].
Qed.

Lemma null_terminated_length (c : command_line) (args : list string) :
  null_terminated c args →
  length (arg_variables c) = Z.to_nat (MAX_ARGS + 1).
Proof.
  intros (Hv & Hn & Hle).
  rewrite Hv, length_app, length_fmap, length_replicate.
  unfold MAX_ARGS in *. lia.
Qed.

(** One plain token, when both of its stores succeed. *)
Lemma parse_plain_token (c c1 c2 : command_line) (args : list string)
    (tok : string) :
  null_terminated c args →
  store_arg c (arg_count c) (Some tok) = inr c1 →
  store_arg (set_arg_count c1 (arg_count c + 1)) (arg_count c + 1) None
    = inr c2 →
  null_terminated c2 (args ++ [tok]) ∧
  input_file c2 = input_file c ∧ output_file c2 = output_file c ∧
  is_background c2 = is_background c.
Proof.
  intros Hnt Hst1 Hst2.
  assert (Hlt : (length args < Z.to_nat MAX_ARGS)%nat).
  { pose proof (null_terminated_length _ _ Hnt) as Hlen.
    destruct Hnt as (_ & Hn & _).
    apply store_arg_inr in Hst1 as (Hl1 & _).
    apply store_arg_inr in Hst2 as (_ & _ & _ & _ & _ & Hi).
    cbn [set_arg_count arg_variables] in Hi.
    rewrite Hl1, Hlen in Hi. unfold MAX_ARGS in *. lia. }
  destruct (null_terminated_store_arg c args tok Hnt Hlt)
    as (c1' & c2' & H1 & H2 & Hrest).
  rewrite Hst1 in H1. injection H1 as <-.
  rewrite Hst2 in H2. injection H2 as <-. exact Hrest.
Qed.

Lemma is_operator_false (tok : string) :
  String.eqb tok "<" = false → String.eqb tok ">" = false →
  String.eqb tok "&" = false → is_operator tok = false.
Proof. unfold is_operator, is_redirect. intros -> -> ->. reflexivity. Qed.

(** The arguments a faultless loop adds are tokens of the line, in their
    order, and none of them is an operator. *)
Lemma parse_list_args (fg : Z) (toks : list string) :
  ∀ c args c', null_terminated c args → parse_list fg toks c = inr c' →
  ∃ new, null_terminated c' (args ++ new) ∧ new `sublist_of` toks ∧
         Forall (λ a, is_operator a = false) new.
Proof.
  induction toks as [|tok rest IH1 IH2] using tokens_ind; intros c args c' Hnt.
  { intros [= <-]. exists []. rewrite app_nil_r.
    split; [exact Hnt|]. split; constructor. }
  assert (Hskip : ∀ (a : command_line) (l : list string),
    (∀ c args c', null_terminated c args → parse_list fg l c = inr c' →
       ∃ new, null_terminated c' (args ++ new) ∧ new `sublist_of` l ∧
              Forall (λ a, is_operator a = false) new) →
    l `sublist_of` rest →
    null_terminated a args → arg_count a = arg_count c →
    match store_arg a (arg_count c) None with
    | inl f => inl f | inr c2 => parse_list fg l c2 end = inr c' →
    ∃ new, null_terminated c' (args ++ new) ∧ new `sublist_of` tok :: rest ∧
           Forall (λ a, is_operator a = false) new).
  { intros a l IH Hsub Ha Hcount.
    destruct (null_terminated_store_null a args Ha) as (c2 & Hst & Hnt2 & _).
    rewrite Hcount in Hst. rewrite Hst. intros H.
    destruct (IH _ _ _ Hnt2 H) as (new & Hn & Hs & Hf).
    exists new. split; [exact Hn|]. split; [|exact Hf].
    apply sublist_cons. etrans; eassumption. }
  cbn [parse_list].
  destruct (String.eqb tok "<") eqn:Hlt.
  { destruct rest as [|name rest']; [discriminate|].
    apply Hskip; [apply (IH2 name rest' eq_refl)|
                  apply sublist_cons; reflexivity|exact Hnt|reflexivity]. }
  destruct (String.eqb tok ">") eqn:Hgt.
  { destruct rest as [|name rest']; [discriminate|].
    apply Hskip; [apply (IH2 name rest' eq_refl)|
                  apply sublist_cons; reflexivity|exact Hnt|reflexivity]. }
  destruct (String.eqb tok "&") eqn:Hamp.
  { apply Hskip; [exact IH1|reflexivity| |];
      destruct (fg =? 0); first [exact Hnt|reflexivity]. }
  destruct (store_arg c _ (Some tok)) as [f|c1] eqn:Hst1; [discriminate|].
  destruct (store_arg (set_arg_count c1 _) _ None) as [f|c2] eqn:Hst2;
    [discriminate|].
  destruct (parse_plain_token _ _ _ _ _ Hnt Hst1 Hst2) as (Hnt2 & _).
  intros H. destruct (IH1 _ _ _ Hnt2 H) as (new & Hn & Hs & Hf).
  exists (tok :: new). rewrite <- app_assoc in Hn.
  split; [exact Hn|]. split; [apply sublist_skip, Hs|].
  constructor; [apply is_operator_false; assumption|exact Hf].
Qed.

(** Where the file names of a faultless loop come from. *)
Lemma parse_list_files (fg : Z) (toks : list string) :
  ∀ c c', parse_list fg toks c = inr c' →
  (input_file c' = input_file c ∨
   ∃ i name, toks !! i = Some "<" ∧ toks !! S i = Some name ∧
             input_file c' = Some name) ∧
  (output_file c' = output_file c ∨
   ∃ i name, toks !! i = Some ">" ∧ toks !! S i = Some name ∧
             output_file c' = Some name).
Proof.
  induction toks as [|tok rest IH1 IH2] using tokens_ind; intros c c'.
  { intros [= <-]. auto. }
  cbn [parse_list].
  destruct (String.eqb_spec tok "<") as [->|Hlt].
  { destruct rest as [|name rest']; [discriminate|].
    destruct (store_arg _ _ None) as [f|c2] eqn:Hst; [discriminate|].
    apply store_arg_inr in Hst as (_ & _ & Hi & Ho & _).
    intros H. apply (IH2 name rest' eq_refl) in H as [Hin Hout]. split.
    - right. destruct Hin as [Hin|(i & n & H1 & H2 & H3)].
      + exists 0%nat, name. rewrite Hin, Hi. auto.
      + exists (S (S i)), n. auto.
    - destruct Hout as [Hout|(i & n & H1 & H2 & H3)].
      + left. rewrite Hout, Ho. reflexivity.
      + right. exists (S (S i)), n. auto. }
  destruct (String.eqb_spec tok ">") as [->|Hgt].
  { destruct rest as [|name rest']; [discriminate|].
    destruct (store_arg _ _ None) as [f|c2] eqn:Hst; [discriminate|].
    apply store_arg_inr in Hst as (_ & _ & Hi & Ho & _).
    intros H. apply (IH2 name rest' eq_refl) in H as [Hin Hout]. split.
    - destruct Hin as [Hin|(i & n & H1 & H2 & H3)].
      + left. rewrite Hin, Hi. reflexivity.
      + right. exists (S (S i)), n. auto.
    - right. destruct Hout as [Hout|(i & n & H1 & H2 & H3)].
      + exists 0%nat, name. rewrite Hout, Ho. auto.
      + exists (S (S i)), n. auto. }
  assert (Hshift : ∀ a : command_line,
    input_file a = input_file c → output_file a = output_file c →
    parse_list fg rest a = inr c' →
    (input_file c' = input_file c ∨
     ∃ i name, (tok :: rest) !! i = Some "<" ∧ (tok :: rest) !! S i = Some name ∧
               input_file c' = Some name) ∧
    (output_file c' = output_file c ∨
     ∃ i name, (tok :: rest) !! i = Some ">" ∧ (tok :: rest) !! S i = Some name ∧
               output_file c' = Some name)).
  { intros a Hi Ho H. apply IH1 in H as [Hin Hout]. rewrite Hi in Hin.
    rewrite Ho in Hout. split.
    - destruct Hin as [Hin|(i & n & H1 & H2 & H3)]; [auto|].
      right. exists (S i), n. auto.
    - destruct Hout as [Hout|(i & n & H1 & H2 & H3)]; [auto|].
      right. exists (S i), n. auto. }
  destruct (String.eqb tok "&").
  { destruct (store_arg _ _ None) as [f|c2] eqn:Hst; [discriminate|].
    apply store_arg_inr in Hst as (_ & _ & Hi & Ho & _).
    apply Hshift; [rewrite Hi|rewrite Ho]; destruct (fg =? 0); reflexivity. }
  destruct (store_arg c _ (Some tok)) as [f|c1] eqn:Hst1; [discriminate|].
  destruct (store_arg (set_arg_count c1 _) _ None) as [f|c2] eqn:Hst2;
    [discriminate|].
  apply store_arg_inr in Hst1 as (_ & _ & Hi1 & Ho1 & _).
  apply store_arg_inr in Hst2 as (_ & _ & Hi2 & Ho2 & _).
  apply Hshift; [rewrite Hi2|rewrite Ho2]; cbn; assumption.
Qed.

Lemma parse_list_plain (fg : Z) (toks : list string) :
  ∀ c args, null_terminated c args →
  forallb (λ t, negb (is_redirect t)) toks = true →
  (length args + length (List.filter not_ampersand toks) <= Z.to_nat MAX_ARGS)%nat →
  ∃ c', parse_list fg toks c = inr c' ∧
        null_terminated c' (args ++ List.filter not_ampersand toks) ∧
        input_file c' = input_file c ∧ output_file c' = output_file c ∧
        is_background c' =
          is_background c || ((fg =? 0) && existsb (λ t, String.eqb t "&") toks).
Proof.
  induction toks as [|tok rest IH]; intros c args Hnt Hplain Hroom.
  { exists c. cbn. rewrite app_nil_r, andb_false_r, orb_false_r. auto. }
  cbn [forallb] in Hplain. apply andb_prop in Hplain as [Htok Hrest].
  unfold is_redirect in Htok. apply negb_true_iff, orb_false_elim in Htok
    as [Hlt Hgt].
  cbn [parse_list List.filter existsb]. unfold not_ampersand at 1 3.
  rewrite Hlt, Hgt.
  cbn [List.filter] in Hroom. unfold not_ampersand at 1 in Hroom.
  destruct (String.eqb tok "&") eqn:Hamp; cbn [negb] in *.
  - assert (Ha : null_terminated
                   (if fg =? 0 then set_is_background c true else c) args)
      by (destruct (fg =? 0); exact Hnt).
    destruct (null_terminated_store_null _ _ Ha) as (c2 & Hst & Hnt2 & Hi & Ho & Hb).
    replace (arg_count (if fg =? 0 then set_is_background c true else c))
      with (arg_count c) in Hst by (destruct (fg =? 0); reflexivity).
    rewrite Hst.
    destruct (IH c2 args Hnt2 Hrest Hroom) as (c' & Hp & Hn & Hi' & Ho' & Hb').
    exists c'. split; [exact Hp|]. split; [exact Hn|].
    rewrite Hi', Ho', Hb', Hi, Ho, Hb.
    destruct (fg =? 0); cbn;
      [rewrite orb_true_r; auto|rewrite orb_false_r; auto].
  - cbn [length] in Hroom.
    destruct (null_terminated_store_arg c args tok Hnt ltac:(lia))
      as (c1 & c2 & Hst1 & Hst2 & Hnt2 & Hi & Ho & Hb).
    rewrite Hst1, Hst2.
    destruct (IH c2 (args ++ [tok]) Hnt2 Hrest) as (c' & Hp & Hn & Hi' & Ho' & Hb').
    { rewrite length_app. cbn [length]. lia. }
    exists c'. split; [exact Hp|]. rewrite <- app_assoc in Hn.
    split; [exact Hn|]. rewrite Hi', Ho', Hb', Hi, Ho, Hb. cbn. auto.
Qed.

#[local] Arguments String.append : simpl nomatch.

Lemma append_assoc (a b c : string) : (a +:+ b) +:+ c = a +:+ (b +:+ c).
Proof. induction a as [|ch a IH]; [reflexivity|]. simpl. f_equal. exact IH. Qed.

Lemma scan_token_word (w rest : string) (d : ascii) :
  string_forallb (λ ch, negb (is_delim ch) && negb (Ascii.eqb ch NUL)) w = true →
  is_delim d = true →
  scan_token (w +:+ String d rest) = (w, rest).
Proof.
  intros Hw Hd. induction w as [|ch w IH]; cbn.
  - rewrite Hd. reflexivity.
  - cbn in Hw. apply andb_prop in Hw as [Hch Hw].
    apply andb_prop in Hch as [Hch _]. apply negb_true_iff in Hch.
    rewrite Hch, (IH Hw). reflexivity.
Qed.

Lemma tokens_word (w rest : string) (d : ascii) :
  is_word w = true → is_delim d = true →
  tokens (w +:+ String d rest) = w :: tokens rest.
Proof.
  unfold is_word. intros Hw Hd. apply andb_prop in Hw as [Hne Hw].
  destruct w as [|ch w]; [discriminate|].
  pose proof (scan_token_word (String ch w) rest d Hw Hd) as Hscan.
  cbn in Hw. apply andb_prop in Hw as [Hch _].
  apply andb_prop in Hch as [Hch _]. apply negb_true_iff in Hch.
  change (String ch w +:+ String d rest) with (String ch (w +:+ String d rest)).
  rewrite (scan_token_tokens _ _ Hch).
  change (String ch (w +:+ String d rest)) with (String ch w +:+ String d rest).
  rewrite Hscan. reflexivity.
Qed.

Lemma tokens_join (words : list string) :
  forallb is_word words = true →
  tokens (String.concat " " words +:+ LF) = words.
Proof.
  induction words as [|w ws IH]; [reflexivity|].
  cbn [forallb]. intros H. apply andb_prop in H as [Hw Hws].
  destruct ws as [|w2 ws].
  - cbn [String.concat]. unfold LF. rewrite tokens_word by auto. reflexivity.
  - change (String.concat " " (w :: w2 :: ws))
      with (w +:+ String " " (String.concat " " (w2 :: ws))).
    rewrite append_assoc.
    change (String " " (String.concat " " (w2 :: ws)) +:+ LF)
      with (String " " (String.concat " " (w2 :: ws) +:+ LF)).
    rewrite tokens_word by auto. rewrite (IH Hws). reflexivity.
Qed.

Lemma c_str_no_nul (s : string) :
  string_forallb (λ ch, negb (Ascii.eqb ch NUL)) s = true → c_str s = s.
Proof.
  induction s as [|ch s IH]; [reflexivity|]. cbn.
  intros H. apply andb_prop in H as [Hch Hs]. apply negb_true_iff in Hch.
  rewrite Hch, (IH Hs). reflexivity.
Qed.

Lemma string_forallb_append (f : ascii → bool) (a b : string) :
  string_forallb f (a +:+ b) = string_forallb f a && string_forallb f b.
Proof.
  induction a as [|ch a IH]; cbn; [reflexivity|].
  rewrite IH, andb_assoc. reflexivity.
Qed.

Lemma string_forallb_impl (f g : ascii → bool) (s : string) :
  (∀ ch, f ch = true → g ch = true) →
  string_forallb f s = true → string_forallb g s = true.
Proof.
  intros Hfg. induction s as [|ch s IH]; [reflexivity|]. cbn.
  intros H. apply andb_prop in H as [Hch Hs].
  rewrite (Hfg _ Hch), (IH Hs). reflexivity.
Qed.

Lemma join_no_nul (words : list string) :
  forallb is_word words = true →
  string_forallb (λ ch, negb (Ascii.eqb ch NUL)) (String.concat " " words) = true.
Proof.
  induction words as [|w ws IH]; [reflexivity|].
  cbn [forallb]. intros H. apply andb_prop in H as [Hw Hws].
  assert (Hnul : string_forallb (λ ch, negb (Ascii.eqb ch NUL)) w = true).
  { unfold is_word in Hw. apply andb_prop in Hw as [_ Hw].
    revert Hw. apply string_forallb_impl. intros ch H.
    apply andb_prop in H as [_ H]. exact H. }
  destruct ws as [|w2 ws]; [exact Hnul|].
  change (String.concat " " (w :: w2 :: ws))
    with (w +:+ String " " (String.concat " " (w2 :: ws))).
  rewrite string_forallb_append, Hnul. cbn. apply IH, Hws.
Qed.

Lemma c_str_join (words : list string) :
  forallb is_word words = true →
  c_str (String.concat " " words +:+ LF) = String.concat " " words +:+ LF.
Proof.
  intros H. apply c_str_no_nul. rewrite string_forallb_append.
  rewrite (join_no_nul _ H). reflexivity.
Qed.

Lemma parse_line_parsed (fg : Z) (input_buffer : string) (c : command_line) :
  parse_line fg input_buffer = Some (Parsed c) →
  blank_or_comment input_buffer = false ∧
  parse_list fg (tokens (c_str input_buffer)) calloc_command_line = inr c.
Proof.
  rewrite parse_line_tokens.
  destruct (blank_or_comment input_buffer); [discriminate|].
  destruct (parse_list _ _ _) as [f|c']; [discriminate|].
  intros [= <-]. auto.
Qed.

(** X1.  A line that is neither blank nor a comment, has at most 512
    tokens and does not end in an odd number of [<] or [>] tokens always
    parses to a Command.  Its argument vector is made of tokens of the
    line, in their order; none of them is [<], [>] or [&]; [arg_count] is
    their number; and the slot at [arg_count] holds the NULL that ends
    the vector for [execvp]. *)
Theorem parsed_arguments_are_plain_tokens (fg : Z) (input_buffer : string) :
  blank_or_comment input_buffer = false →
  (length (tokens (c_str input_buffer)) <= Z.to_nat MAX_ARGS)%nat →
  Nat.odd (trailing_redirects (tokens (c_str input_buffer))) = false →
  ∃ c,
    parse_line fg input_buffer = Some (Parsed c) ∧
    argv (arg_variables c) `sublist_of` tokens (c_str input_buffer) ∧
    Forall (λ a, is_operator a = false) (argv (arg_variables c)) ∧
    arg_count c = Z.of_nat (length (argv (arg_variables c))) ∧
    arg_variables c !! Z.to_nat (arg_count c) = Some None.
Proof.
  intros Hblank Hlen Heven. rewrite parse_line_tokens, Hblank.
  pose proof (parse_list_redirects fg (tokens (c_str input_buffer))
                calloc_command_line (has_room_calloc _ Hlen)) as Hrun.
  rewrite Heven in Hrun. destruct Hrun as [c Hrun].
  exists c. rewrite Hrun. split; [reflexivity|].
  destruct (parse_list_args _ _ _ _ _ null_terminated_calloc Hrun)
    as (new & Hnt & Hsub & Hops).
  cbn [app] in Hnt. rewrite (null_terminated_argv _ _ Hnt).
  destruct Hnt as (Hv & Hn & Hle).
  split; [exact Hsub|]. split; [exact Hops|]. split; [exact Hn|].
  rewrite Hn, Nat2Z.id, Hv.
  rewrite lookup_app_r by (rewrite length_fmap; lia).
  rewrite length_fmap, Nat.sub_diag.
  apply lookup_replicate_2. unfold MAX_ARGS in *. lia.
Qed.

Lemma parsed_arguments_are_plain_tokens_witness :
  ∃ c,
    parse_line 0 ("wc -l < in > out &" +:+ LF) = Some (Parsed c) ∧
    argv (arg_variables c) `sublist_of`
      tokens (c_str ("wc -l < in > out &" +:+ LF)) ∧
    Forall (λ a, is_operator a = false) (argv (arg_variables c)) ∧
    arg_count c = Z.of_nat (length (argv (arg_variables c))) ∧
    arg_variables c !! Z.to_nat (arg_count c) = Some None.
Proof.
  pose proof (parsed_arguments_are_plain_tokens
                0 ("wc -l < in > out &" +:+ LF)) as H.
  apply H.
  - reflexivity.
  - vm_compute. lia.
  - reflexivity.
Defined.

(** X2.  The file names of a parsed Command come from the line: an input
    file is the token that follows a [<] token, an output file the token
    that follows a [>] token. *)
Theorem parsed_files_follow_redirects
    (fg : Z) (input_buffer : string) (c : command_line) :
  parse_line fg input_buffer = Some (Parsed c) →
  (∀ name, input_file c = Some name →
     ∃ i, tokens (c_str input_buffer) !! i = Some "<" ∧
          tokens (c_str input_buffer) !! S i = Some name) ∧
  (∀ name, output_file c = Some name →
     ∃ i, tokens (c_str input_buffer) !! i = Some ">" ∧
          tokens (c_str input_buffer) !! S i = Some name).
Proof.
  intros H. apply parse_line_parsed in H as [_ H].
  apply parse_list_files in H as [Hin Hout]. split; intros name Hname.
  - destruct Hin as [Hin|(i & n & H1 & H2 & H3)].
    + rewrite Hname in Hin. discriminate.
    + exists i. rewrite Hname in H3. injection H3 as ->. auto.
  - destruct Hout as [Hout|(i & n & H1 & H2 & H3)].
    + rewrite Hname in Hout. discriminate.
    + exists i. rewrite Hname in H3. injection H3 as ->. auto.
Qed.

Lemma parsed_files_follow_redirects_witness :
  ∃ i, tokens (c_str ("wc -l < in > out &" +:+ LF)) !! i = Some "<" ∧
       tokens (c_str ("wc -l < in > out &" +:+ LF)) !! S i = Some "in".
Proof.
  pose proof (parsed_files_follow_redirects
                0 ("wc -l < in > out &" +:+ LF)
                (command_of (parse_line 0 ("wc -l < in > out &" +:+ LF)))) as H.
  destruct H as [H _].
  - vm_compute. reflexivity.
  - apply H. vm_compute. reflexivity.
Defined.

(** X3.  A line that is neither blank nor a comment, has no [<] or [>]
    token and at most 512 tokens other than [&], always parses.  Its
    arguments are its tokens other than [&], in order; it has no
    redirection; and it is a background command exactly when
    [foreground_only] is 0 and some token is [&], wherever on the line
    that token stands. *)
Theorem line_without_redirects_parses
    (fg : Z) (input_buffer : string) :
  blank_or_comment input_buffer = false →
  forallb (λ t, negb (is_redirect t)) (tokens (c_str input_buffer)) = true →
  (length (List.filter not_ampersand (tokens (c_str input_buffer)))
   <= Z.to_nat MAX_ARGS)%nat →
  ∃ c, parse_line fg input_buffer = Some (Parsed c) ∧
       argv (arg_variables c) =
         List.filter not_ampersand (tokens (c_str input_buffer)) ∧
       input_file c = None ∧ output_file c = None ∧
       is_background c =
         (fg =? 0) && existsb (λ t, String.eqb t "&") (tokens (c_str input_buffer)).
Proof.
  intros Hblank Hplain Hroom. rewrite parse_line_tokens, Hblank.
  destruct (parse_list_plain fg _ _ [] null_terminated_calloc Hplain Hroom)
    as (c & Hp & Hnt & Hi & Ho & Hb).
  exists c. rewrite Hp. split; [reflexivity|].
  split; [apply (null_terminated_argv _ _ Hnt)|]. auto.
Qed.

Lemma line_without_redirects_parses_witness :
  ∃ c, parse_line 0 ("sleep & 5" +:+ LF) = Some (Parsed c) ∧
       argv (arg_variables c) = ["sleep"; "5"] ∧
       input_file c = None ∧ output_file c = None ∧
       is_background c = true.
Proof.
  pose proof (line_without_redirects_parses 0 ("sleep & 5" +:+ LF)) as H.
  apply H.
  - reflexivity.
  - reflexivity.
  - vm_compute. lia.
Defined.

(** X4.  Joining up to 512 words with single spaces and ending the line
    with a line feed, then parsing it, gives the words back as the
    argument vector.  A word is not empty, holds no space, line feed or
    NUL, and is none of [<], [>], [&]; the line must not start with
    [#]. *)
Theorem joined_words_parse_back (fg : Z) (words : list string) :
  forallb is_word words = true →
  forallb (λ w, negb (is_operator w)) words = true →
  first_byte (String.concat " " words) ≠ hash →
  (1 <= length words <= Z.to_nat MAX_ARGS)%nat →
  ∃ c, parse_line fg (String.concat " " words +:+ LF) = Some (Parsed c) ∧
       argv (arg_variables c) = words ∧
       arg_count c = Z.of_nat (length words) ∧
       input_file c = None ∧ output_file c = None ∧
       is_background c = false.
Proof.
  intros Hwords Hops Hhash Hlen.
  assert (Hfilter : List.filter not_ampersand words = words).
  { clear -Hops. induction words as [|w ws IH]; [reflexivity|].
    cbn in *. apply andb_prop in Hops as [Hw Hws].
    unfold is_operator in Hw. apply negb_true_iff, orb_false_elim in Hw as [_ Hw].
    unfold not_ampersand at 1. rewrite Hw. cbn. rewrite (IH Hws). reflexivity. }
  assert (Hnoamp : existsb (λ t, String.eqb t "&") words = false).
  { clear -Hops. induction words as [|w ws IH]; [reflexivity|].
    cbn in *. apply andb_prop in Hops as [Hw Hws].
    unfold is_operator in Hw. apply negb_true_iff, orb_false_elim in Hw as [_ Hw].
    rewrite Hw, (IH Hws). reflexivity. }
  assert (Hplain : forallb (λ t, negb (is_redirect t)) words = true).
  { clear -Hops. induction words as [|w ws IH]; [reflexivity|].
    cbn in *. apply andb_prop in Hops as [Hw Hws].
    unfold is_operator in Hw. apply negb_true_iff, orb_false_elim in Hw as [Hw _].
    rewrite Hw, (IH Hws). reflexivity. }
  assert (Hblank : blank_or_comment (String.concat " " words +:+ LF) = false).
  { destruct words as [|w ws]; [cbn in Hlen; lia|].
    cbn [forallb] in Hwords. apply andb_prop in Hwords as [Hw _].
    unfold is_word in Hw. apply andb_prop in Hw as [Hne Hw].
    destruct w as [|ch w]; [discriminate|].
    cbn in Hw. apply andb_prop in Hw as [Hch _].
    apply andb_prop in Hch as [Hch _]. apply negb_true_iff in Hch.
    assert (Hfirst : first_byte (String.concat " " (String ch w :: ws) +:+ LF) = ch)
      by (destruct ws; reflexivity).
    assert (Hfirst' : first_byte (String.concat " " (String ch w :: ws)) = ch)
      by (destruct ws; reflexivity).
    unfold blank_or_comment. rewrite Hfirst. rewrite Hfirst' in Hhash.
    unfold is_delim in Hch. apply orb_false_elim in Hch as [_ Hnl].
    rewrite Hnl. cbn. apply Ascii.eqb_neq. exact Hhash. }
  rewrite parse_line_tokens, Hblank, (c_str_join _ Hwords), (tokens_join _ Hwords).
  destruct (parse_list_plain fg words calloc_command_line [] null_terminated_calloc
              Hplain) as (c & Hp & Hnt & Hi & Ho & Hb).
  { rewrite Hfilter. cbn. lia. }
  cbn [app] in Hnt. rewrite Hfilter in Hnt.
  exists c. rewrite Hp. split; [reflexivity|].
  split; [apply (null_terminated_argv _ _ Hnt)|].
  split; [apply Hnt|]. split; [exact Hi|]. split; [exact Ho|].
  rewrite Hb, Hnoamp, andb_false_r. reflexivity.
Qed.

Lemma joined_words_parse_back_witness :
  ∃ c, parse_line 0 ("ls -la /tmp" +:+ LF) = Some (Parsed c) ∧
       argv (arg_variables c) = ["ls"; "-la"; "/tmp"] ∧
       arg_count c = 3 ∧
       input_file c = None ∧ output_file c = None ∧
       is_background c = false.
Proof.
  pose proof (joined_words_parse_back 0 ["ls"; "-la"; "/tmp"]) as H.
  apply H.
  - reflexivity.
  - reflexivity.
  - vm_compute. discriminate.
  - vm_compute. lia.
Defined.

Lemma fgets_scan_split (room : nat) (s : string) :
  s = (fgets_scan room s).1 +:+ (fgets_scan room s).2 ∧
  (String.length (fgets_scan room s).1 <= room)%nat ∧
  ((∃ line, (fgets_scan room s).1 = line +:+ LF ∧ no_newline line = true) ∨
   (no_newline (fgets_scan room s).1 = true ∧
    (String.length (fgets_scan room s).1 = room ∨ (fgets_scan room s).2 = ""))).
Proof.
  revert s. induction room as [|room IH]; intros s.
  { cbn. split; [reflexivity|]. split; [lia|]. right. auto. }
  destruct s as [|ch s].
  { cbn. split; [reflexivity|]. split; [lia|]. right. auto. }
  cbn [fgets_scan]. destruct (Ascii.eqb_spec ch newline) as [->|Hch].
  { cbn. split; [reflexivity|]. split; [lia|]. left. exists "". auto. }
  specialize (IH s). destruct (fgets_scan room s) as [l r].
  cbn [fst snd] in *. destruct IH as (Hs & Hlen & Hshape).
  split; [cbn; f_equal; exact Hs|]. split; [cbn; lia|].
  apply Ascii.eqb_neq in Hch.
  destruct Hshape as [(line & -> & Hline)|(Hl & Hend)].
  - left. exists (String ch line). split; [reflexivity|].
    unfold no_newline in *. cbn. rewrite Hch, Hline. reflexivity.
  - right. split.
    + unfold no_newline in *. cbn. rewrite Hch, Hl. reflexivity.
    + destruct Hend as [Hend|Hend]; [left; cbn; lia|right; exact Hend].
Qed.

Lemma fgets_scan_nonempty (room : nat) (ch : ascii) (s : string) :
  (1 <= String.length (fgets_scan (S room) (String ch s)).1)%nat.
Proof.
  cbn [fgets_scan]. destruct (Ascii.eqb ch newline); [cbn; lia|].
  destruct (fgets_scan room s). cbn. lia.
Qed.

(** X5.  On input that is not at its end, [parse_input] prints the prompt
    and takes a prefix of 1 to 2047 bytes off the input, leaving the rest
    unread.  The prefix is one whole line with its line feed, or it holds
    no line feed and is 2047 bytes long or reaches the end of the input:
    a longer line is continued by the next read.  Neither global
    changes. *)
Theorem parse_input_takes_one_line (p : process) :
  unread p ≠ "" →
  ∃ buffer,
    unread p = buffer +:+ unread (parse_input p).2 ∧
    (1 <= String.length buffer <= 2047)%nat ∧
    ((∃ line, buffer = line +:+ LF ∧ no_newline line = true) ∨
     (no_newline buffer = true ∧
      (String.length buffer = 2047%nat ∨ unread (parse_input p).2 = ""))) ∧
    latest_status (parse_input p).2 = latest_status p ∧
    foreground_only (parse_input p).2 = foreground_only p ∧
    trace (parse_input p).2 = trace p ++ [Printf ": "; Fflush].
Proof.
  intros Hinput. rewrite parse_input_unfold.
  destruct (unread p) as [|ch s] eqn:Hunread; [contradiction|].
  unfold fgets.
  change (Z.to_nat (INPUT_LENGTH - 1)) with (S 2046).
  pose proof (fgets_scan_split (S 2046) (String ch s)) as (Hs & Hlen & Hshape).
  pose proof (fgets_scan_nonempty 2046 ch s) as Hne.
  destruct (fgets_scan (S 2046) (String ch s)) as [buffer rest].
  cbn [fst snd prompted unread latest_status foreground_only trace] in *.
  exists buffer. split; [exact Hs|]. split; [lia|]. split; [exact Hshape|].
  rewrite <- app_assoc. auto.
Qed.

Lemma parse_input_takes_one_line_witness :
  ∃ buffer,
    "ls" +:+ LF +:+ "pwd" +:+ LF =
      buffer +:+ unread (parse_input (initial_process
                                        ("ls" +:+ LF +:+ "pwd" +:+ LF))).2 ∧
    (1 <= String.length buffer <= 2047)%nat.
Proof.
  pose proof (parse_input_takes_one_line
                (initial_process ("ls" +:+ LF +:+ "pwd" +:+ LF))) as H.
  destruct H as (buffer & H1 & H2 & _).
  - vm_compute. discriminate.
  - exists buffer. split; [exact H1|exact H2].
Defined.

(** Bytes after a NUL are not part of the C string. *)
Lemma c_str_nul (s t : string) : c_str (s +:+ String NUL t) = c_str s.
Proof.
  induction s as [|ch s IH]; [reflexivity|]. cbn.
  destruct (Ascii.eqb ch NUL); [reflexivity|]. rewrite IH. reflexivity.
Qed.

(** X6.  A NUL byte ends the line for the parser: whatever follows it in
    the buffer is not tokenized. *)
Theorem bytes_after_nul_are_ignored (fg : Z) (s t : string) :
  s ≠ "" → parse_line fg (s +:+ String NUL t) = parse_line fg s.
Proof.
  intros Hs. rewrite !parse_line_tokens, c_str_nul.
  destruct s as [|ch s]; [contradiction|]. reflexivity.
Qed.

Lemma bytes_after_nul_are_ignored_witness :
  parse_line 0 ("ls" +:+ String NUL ("-l &" +:+ LF)) = parse_line 0 "ls".
Proof.
  apply (bytes_after_nul_are_ignored 0 "ls" ("-l &" +:+ LF)). discriminate.
Defined.

Lemma take_while_reaped_cons (poll : Z * Z) (later : list (Z * Z)) :
  reaped_children (poll :: later) =
  if 0 <? poll.1 then poll :: reaped_children later else [].
Proof. reflexivity. Qed.

Lemma background_loop_events (polls : list (Z * Z)) (p : process) :
  ∃ events,
    background_loop polls p = (Ret tt, add_events p events) ∧
    forallb (λ e, negb (is_foreground_wait e)) events = true ∧
    length (List.filter is_waitpid events) = S (length (reaped_children polls)) ∧
    omap (λ e, match e with Printf text => Some text | _ => None end) events =
      omap completion_message (reaped_children polls).
Proof.
  revert p. induction polls as [|[pid st] later IH]; intros p.
  { exists [Waitpid (-1) WNOHANG 0 0]. auto. }
  rewrite take_while_reaped_cons. cbn [fst background_loop].
  destruct (0 <? pid) eqn:Hpid.
  - change (omap completion_message ((pid, st) :: reaped_children later))
      with (match completion_message (pid, st) with
            | Some text => text :: omap completion_message (reaped_children later)
            | None => omap completion_message (reaped_children later)
            end).
    unfold completion_message at 1. cbn [fst snd].
    cbv beta iota delta [mbind M_bind printf fflush emit mret M_ret].
    destruct (WIFEXITED st); [|destruct (WIFSIGNALED st)];
      cbv beta iota;
      match goal with
      | |- context [background_loop later ?q] =>
          destruct (IH q) as (events & Hrun & Hfg & Hcount & Hmsg)
      end.
    + eexists (Waitpid (-1) WNOHANG pid st :: Printf _ :: Fflush :: events).
      rewrite Hrun. split; [unfold add_events; cbn [trace latest_status
        foreground_only unread]; rewrite <- !app_assoc; reflexivity|].
      split; [exact Hfg|]. split; [cbn [List.filter is_waitpid length];
                                   rewrite Hcount; reflexivity|].
      rewrite <- Hmsg. reflexivity.
    + eexists (Waitpid (-1) WNOHANG pid st :: Printf _ :: Fflush :: events).
      rewrite Hrun. split; [unfold add_events; cbn [trace latest_status
        foreground_only unread]; rewrite <- !app_assoc; reflexivity|].
      split; [exact Hfg|]. split; [cbn [List.filter is_waitpid length];
                                   rewrite Hcount; reflexivity|].
      rewrite <- Hmsg. reflexivity.
    + eexists (Waitpid (-1) WNOHANG pid st :: Fflush :: events).
      rewrite Hrun. split; [unfold add_events; cbn [trace latest_status
        foreground_only unread]; rewrite <- !app_assoc; reflexivity|].
      split; [exact Hfg|]. split; [cbn [List.filter is_waitpid length];
                                   rewrite Hcount; reflexivity|].
      rewrite <- Hmsg. reflexivity.
  - exists [Waitpid (-1) WNOHANG pid st].
    cbv beta iota delta [mbind M_bind emit mret M_ret]. auto.
Qed.

(** X7.  [background_tracker] always returns and never makes a blocking
    wait.  It polls once more than the number of children it reaps, and
    prints, in order, exactly one completion line for each reaped child
    whose status is an exit or a termination by signal. *)
Theorem background_tracker_reaps_without_blocking (os : os_env) (p : process) :
  ∃ events,
    background_tracker os p = (Ret tt, add_events p events) ∧
    forallb (λ e, negb (is_foreground_wait e)) events = true ∧
    length (List.filter is_waitpid events) =
      S (length (reaped_children (sys_polls os))) ∧
    omap (λ e, match e with Printf text => Some text | _ => None end) events =
      omap completion_message (reaped_children (sys_polls os)).
Proof. apply background_loop_events. Qed.

Lemma WTERMSIG_mod (status : Z) : WTERMSIG status = status mod 128.
Proof. unfold WTERMSIG. change 127 with (Z.ones 7). apply Z.land_ones. lia. Qed.

Lemma WEXITSTATUS_div (status : Z) : WEXITSTATUS status = (status / 256) mod 256.
Proof.
  unfold WEXITSTATUS. rewrite Z.shiftr_land.
  change (Z.shiftr 65280 8) with (Z.ones 8).
  rewrite Z.land_ones by lia. rewrite Z.shiftr_div_pow2 by lia. reflexivity.
Qed.

Lemma WIFEXITED_mod (status : Z) : WIFEXITED status = (status mod 128 =? 0).
Proof. unfold WIFEXITED. rewrite WTERMSIG_mod. reflexivity. Qed.

Lemma WIFSIGNALED_mod (status : Z) :
  WIFSIGNALED status = (1 <=? status mod 128) && (status mod 128 <=? 126).
Proof.
  unfold WIFSIGNALED. change 127 with (Z.ones 7).
  rewrite Z.land_ones by lia. change (2 ^ 7) with 128.
  pose proof (Z.mod_pos_bound status 128 ltac:(lia)) as Hm.
  set (v := status mod 128) in *.
  destruct (Z.leb_spec 128 (v + 1)).
  - assert (v = 127) as -> by lia. reflexivity.
  - rewrite Z.shiftr_div_pow2 by lia. change (2 ^ 1) with 2.
    destruct (Z.ltb_spec 0 ((v + 1) / 2)), (Z.leb_spec 1 v), (Z.leb_spec v 126);
      cbn; try reflexivity; exfalso; Z.div_mod_to_equations; lia.
Qed.

(** What [status] prints for a raw wait status, in arithmetic terms. *)
Lemma status_text_arith (status : Z) :
  status_text status =
  if status mod 128 =? 0 then
    Some ("exit value " +:+ pretty ((status / 256) mod 256) +:+ LF)
  else if status mod 128 =? 127 then None
  else Some ("terminated by signal " +:+ pretty (status mod 128) +:+ LF).
Proof.
  unfold status_text.
  rewrite WIFSIGNALED_mod, WIFEXITED_mod, WTERMSIG_mod, WEXITSTATUS_div.
  pose proof (Z.mod_pos_bound status 128 ltac:(lia)) as Hm.
  destruct (Z.eqb_spec (status mod 128) 0) as [->|H0]; [reflexivity|].
  destruct (Z.eqb_spec (status mod 128) 127) as [->|H127]; [reflexivity|].
  destruct (Z.leb_spec 1 (status mod 128)), (Z.leb_spec (status mod 128) 126);
    cbn; try reflexivity; exfalso; lia.
Qed.

Lemma exec_commands_foreground (os : os_env) (c : command_line) (p : process) :
  sys_fork os ≠ -1 → sys_fork os ≠ 0 → is_background c = false →
  exec_commands os c p =
  (Ret 0,
   {| latest_status := sys_wait_status os;
      foreground_only := foreground_only p;
      unread := unread p;
      trace := trace p ++
        [Fork (sys_fork os);
         Waitpid (sys_fork os) 0 (sys_fork os) (sys_wait_status os)] ++
        (if WIFSIGNALED (sys_wait_status os)
         then [Printf ("terminated by signal "
                       +:+ pretty (WTERMSIG (sys_wait_status os)) +:+ LF);
               Fflush]
         else []) ++
        [Free] |}).
Proof.
  intros Hfail Hchild Hbg.
  unfold exec_commands, manage_child_process, empty_heap_memory, printf,
    fflush, mbind, M_bind.
  destruct (Z.eqb_spec (sys_fork os) (-1)); [contradiction|].
  destruct (Z.eqb_spec (sys_fork os) 0); [contradiction|].
  rewrite Hbg. cbn.
  destruct (WIFSIGNALED (sys_wait_status os)); cbn;
    rewrite <- ?app_assoc; reflexivity.
Qed.

(** X8.  After a foreground command whose child exits with code [code],
    nothing is printed at once, and the status built-in then prints
    "exit value code". *)
Theorem status_reports_exit_code
    (os os' : os_env) (c sc : command_line) (p : process) (code : Z) :
  sys_fork os ≠ -1 → sys_fork os ≠ 0 → is_background c = false →
  0 <= code < 256 → sys_wait_status os = code * 256 →
  arg_variables sc !! 0%nat = Some (Some "status") →
  (exec_commands os c ≫= λ _, built_in_commands os' sc) p =
  (Ret 0,
   {| latest_status := code * 256;
      foreground_only := foreground_only p;
      unread := unread p;
      trace := trace p ++
        [Fork (sys_fork os);
         Waitpid (sys_fork os) 0 (sys_fork os) (code * 256);
         Free;
         Printf ("exit value " +:+ pretty code +:+ LF); Fflush; Free] |}).
Proof.
  intros Hfail Hchild Hbg Hcode Hstatus Hname.
  unfold mbind at 1, M_bind at 1.
  rewrite (exec_commands_foreground os c p Hfail Hchild Hbg).
  rewrite (built_in_status os' sc _ Hname). cbn [latest_status].
  rewrite WIFSIGNALED_mod, status_text_arith, Hstatus.
  replace ((code * 256) mod 128) with 0 by (Z.div_mod_to_equations; lia).
  replace ((code * 256) / 256 mod 256) with code by (Z.div_mod_to_equations; lia).
  cbn. unfold add_events. cbn. rewrite <- !app_assoc. reflexivity.
Qed.

Lemma status_reports_exit_code_witness :
  (exec_commands (sample_os 4923 768) (command_of (parse_line 0 ("ls" +:+ LF)))
     ≫= λ _, built_in_commands (sample_os 0 0) status_command)
    (initial_process "") =
  (Ret 0,
   {| latest_status := 768; foreground_only := 0; unread := "";
      trace := [Fork 4923; Waitpid 4923 0 4923 768; Free;
                Printf ("exit value 3" +:+ LF); Fflush; Free] |}).
Proof.
  pose proof (status_reports_exit_code
                (sample_os 4923 768) (sample_os 0 0)
                (command_of (parse_line 0 ("ls" +:+ LF))) status_command
                (initial_process "") 3) as H.
  apply H.
  - vm_compute. discriminate.
  - vm_compute. discriminate.
  - vm_compute. reflexivity.
  - lia.
  - reflexivity.
  - vm_compute. reflexivity.
Defined.

(** X9.  After a foreground command whose child was killed by signal
    [sig], the shell prints "terminated by signal sig" at once, and the
    status built-in prints the same line again. *)
Theorem status_reports_terminating_signal
    (os os' : os_env) (c sc : command_line) (p : process) (sig : Z) :
  sys_fork os ≠ -1 → sys_fork os ≠ 0 → is_background c = false →
  1 <= sig <= 126 → sys_wait_status os mod 128 = sig →
  arg_variables sc !! 0%nat = Some (Some "status") →
  (exec_commands os c ≫= λ _, built_in_commands os' sc) p =
  (Ret 0,
   {| latest_status := sys_wait_status os;
      foreground_only := foreground_only p;
      unread := unread p;
      trace := trace p ++
        [Fork (sys_fork os);
         Waitpid (sys_fork os) 0 (sys_fork os) (sys_wait_status os);
         Printf ("terminated by signal " +:+ pretty sig +:+ LF); Fflush;
         Free;
         Printf ("terminated by signal " +:+ pretty sig +:+ LF); Fflush;
         Free] |}).
Proof.
  intros Hfail Hchild Hbg Hsig Hstatus Hname.
  unfold mbind at 1, M_bind at 1.
  rewrite (exec_commands_foreground os c p Hfail Hchild Hbg).
  rewrite (built_in_status os' sc _ Hname). cbn [latest_status].
  rewrite WIFSIGNALED_mod, status_text_arith, WTERMSIG_mod, Hstatus.
  destruct (Z.eqb_spec sig 0); [lia|].
  destruct (Z.eqb_spec sig 127); [lia|].
  destruct (Z.leb_spec 1 sig); [|lia].
  destruct (Z.leb_spec sig 126); [|lia].
  cbn. unfold add_events. cbn. rewrite <- !app_assoc. reflexivity.
Qed.

Lemma status_reports_terminating_signal_witness :
  (exec_commands (sample_os 4923 2) (command_of (parse_line 0 ("sleep 9" +:+ LF)))
     ≫= λ _, built_in_commands (sample_os 0 0) status_command)
    (initial_process "") =
  (Ret 0,
   {| latest_status := 2; foreground_only := 0; unread := "";
      trace := [Fork 4923; Waitpid 4923 0 4923 2;
                Printf ("terminated by signal 2" +:+ LF); Fflush; Free;
                Printf ("terminated by signal 2" +:+ LF); Fflush; Free] |}).
Proof.
  pose proof (status_reports_terminating_signal
                (sample_os 4923 2) (sample_os 0 0)
                (command_of (parse_line 0 ("sleep 9" +:+ LF))) status_command
                (initial_process "") 2) as H.
  apply H.
  - vm_compute. discriminate.
  - vm_compute. discriminate.
  - vm_compute. reflexivity.
  - lia.
  - reflexivity.
  - vm_compute. reflexivity.
Defined.

(** X10.  In the parent, after a successful [fork], [exec_commands] makes
    the blocking wait exactly when the command is not a background one,
    and prints "background pid is <pid>" exactly when it is; only the
    foreground case assigns [latest_status]. *)
Theorem exec_commands_waits_iff_foreground
    (os : os_env) (c : command_line) (p : process) :
  sys_fork os ≠ -1 → sys_fork os ≠ 0 →
  ∃ events,
    exec_commands os c p =
      (Ret 0,
       {| latest_status :=
            if is_background c then latest_status p else sys_wait_status os;
          foreground_only := foreground_only p;
          unread := unread p;
          trace := trace p ++ events |}) ∧
    existsb is_foreground_wait events = negb (is_background c) ∧
    existsb (λ e, match e with
                  | Printf text =>
                      String.eqb text ("background pid is "
                                       +:+ pretty (sys_fork os) +:+ LF)
                  | _ => false
                  end) events = is_background c.
Proof.
  intros Hfail Hchild. destruct (is_background c) eqn:Hbg.
  - exists [Fork (sys_fork os);
            Printf ("background pid is " +:+ pretty (sys_fork os) +:+ LF);
            Fflush; Free].
    split.
    + unfold exec_commands, manage_child_process, empty_heap_memory, printf,
        fflush, mbind, M_bind.
      destruct (Z.eqb_spec (sys_fork os) (-1)); [contradiction|].
      destruct (Z.eqb_spec (sys_fork os) 0); [contradiction|].
      rewrite Hbg. cbn. rewrite <- !app_assoc. reflexivity.
    + split; [reflexivity|]. cbn [existsb]. rewrite String.eqb_refl. reflexivity.
  - eexists. split; [apply exec_commands_foreground; assumption|].
    split; [reflexivity|].
    destruct (WIFSIGNALED (sys_wait_status os)); reflexivity.
Qed.

Lemma exec_commands_waits_iff_foreground_witness :
  ∃ events,
    exec_commands (sample_os 4923 0) background_command (initial_process "") =
      (Ret 0, {| latest_status := 0; foreground_only := 0; unread := "";
                 trace := events |}) ∧
    existsb is_foreground_wait events = false.
Proof.
  pose proof (exec_commands_waits_iff_foreground
                (sample_os 4923 0) background_command (initial_process "")) as H.
  destruct H as (events & H1 & H2 & _).
  - vm_compute. discriminate.
  - vm_compute. discriminate.
  - exists events. split; [exact H1|exact H2].
Defined.

Lemma appends_emit (allowed : event → bool) (before : list event) (e : event) :
  allowed e = true → preserves (appends allowed before) (emit e).
Proof.
  intros He p (events & Htrace & Hall). exists (events ++ [e]). cbn.
  rewrite Htrace, <- app_assoc, forallb_app, Hall. cbn. rewrite He. auto.
Qed.

Lemma appends_put_unread allowed before s :
  preserves (appends allowed before) (put_unread s).
Proof. intros p H. exact H. Qed.

Lemma appends_put_foreground_only allowed before fg :
  preserves (appends allowed before) (put_foreground_only fg).
Proof. intros p H. exact H. Qed.

Lemma appends_put_latest_status allowed before v :
  preserves (appends allowed before) (put_latest_status v).
Proof. intros p H. exact H. Qed.

Lemma appends_start (allowed : event → bool) (p : process) :
  appends allowed (trace p) p.
Proof. exists []. rewrite app_nil_r. auto. Qed.

#[export] Hint Resolve appends_put_unread appends_put_foreground_only
  appends_put_latest_status : preserves.
#[export] Hint Extern 1 (preserves (appends _ _) (emit _)) =>
  apply appends_emit; reflexivity : preserves.

Lemma built_in_commands_appends (os : os_env) (c : command_line)
    (before : list event) :
  preserves (appends is_builtin_event before) (built_in_commands os c).
Proof.
  unfold built_in_commands, arg_string, empty_heap_memory, printf, fflush,
    perror.
  repeat preserves_step.
Qed.

(** X11.  A built-in only prints, reads HOME, changes directory and
    frees: it never forks, waits, opens a file or duplicates a
    descriptor.  What it does depends only on the arguments of the
    Command, not on its redirection fields or its background flag. *)
Theorem built_ins_ignore_redirection_and_background
    (os : os_env) (c : command_line) (p : process) :
  (∃ events, trace (built_in_commands os c p).2 = trace p ++ events ∧
             forallb is_builtin_event events = true) ∧
  (∀ c', arg_variables c' = arg_variables c → arg_count c' = arg_count c →
         built_in_commands os c' p = built_in_commands os c p).
Proof.
  split.
  - apply (built_in_commands_appends os c (trace p) p), appends_start.
  - intros c' Hv Hn. unfold built_in_commands, arg_string.
    rewrite Hv, Hn. reflexivity.
Qed.

Lemma built_ins_ignore_redirection_and_background_witness :
  built_in_commands (sample_os 0 0)
    (command_of (parse_line 0 ("cd /tmp > out &" +:+ LF))) (initial_process "") =
  built_in_commands (sample_os 0 0)
    (command_of (parse_line 0 ("cd /tmp" +:+ LF))) (initial_process "").
Proof.
  pose proof (built_ins_ignore_redirection_and_background
                (sample_os 0 0) (command_of (parse_line 0 ("cd /tmp" +:+ LF)))
                (initial_process "")) as [_ H].
  apply H.
  - vm_compute. reflexivity.
  - vm_compute. reflexivity.
Defined.

Lemma file_redirection_appends (os : os_env) (c : command_line)
    (before : list event) :
  preserves (appends is_redirection_event before) (file_redirection os c).
Proof. unfold file_redirection, printf, fflush. repeat preserves_step. Qed.

(** X12.  In the child, [exec_commands] first sets SIGINT to ignored for a
    background command and to the default action otherwise, then SIGTSTP
    to ignored; only redirection calls follow.  The child never returns to
    the loop: it becomes the program named by the first argument, run on
    the argument vector, or it ends with exit status 1. *)
Theorem child_sets_signals_then_redirects
    (os : os_env) (c : command_line) (p : process) (name : string) :
  sys_fork os = 0 →
  arg_variables c !! 0%nat = Some (Some name) →
  (∃ events,
     trace (exec_commands os c p).2 =
       (trace p ++
        [Fork 0;
         Sigaction SIGINT (if is_background c then SIG_IGN else SIG_DFL) 0;
         Sigaction SIGTSTP SIG_IGN 0]) ++ events ∧
     forallb is_redirection_event events = true) ∧
  ((exec_commands os c p).1 = Exited 1 ∨
   (exec_commands os c p).1 = Execed name (argv (arg_variables c)) ∧
   sys_execvp_ok os = true).
Proof.
  intros Hfork Hname. split.
  - assert (Hrest : preserves (A := Z)
      (appends is_redirection_event
         (trace p ++
          [Fork 0;
           Sigaction SIGINT (if is_background c then SIG_IGN else SIG_DFL) 0;
           Sigaction SIGTSTP SIG_IGN 0]))
      (file_redirection os c;;
       name ← arg_string c 0;
       if sys_execvp_ok os then replaced name (argv (arg_variables c))
       else printf (name +:+ ": no such file or directory" +:+ LF);; exit 1)).
    { pose proof (file_redirection_appends os c).
      unfold arg_string, printf. repeat preserves_step. }
    unfold exec_commands. rewrite Hfork.
    change (0 =? -1) with false. change (0 =? 0) with true. cbv beta iota zeta.
    unfold mbind at 1 2 3, M_bind at 1 2 3.
    destruct (is_background c); cbn [emit];
      (eapply Hrest; exists []; cbn [trace]; rewrite <- !app_assoc; auto).
  - pose proof (child_never_returns os c p Hfork) as H.
    assert (Hargv : is_Some (argv (arg_variables c) !! 0%nat)).
    { destruct (arg_variables c) as [|[s|] slots]; try discriminate. cbn. eauto. }
    specialize (H Hargv).
    assert (Hexec : ∀ file args, (exec_commands os c p).1 = Execed file args →
                                 file = name).
    { unfold exec_commands, file_redirection, arg_string, printf, fflush,
        mbind, M_bind.
      rewrite Hfork, Hname. cbn.
      destruct (is_background c), (input_file c), (output_file c); cbn;
        repeat match goal with
               | |- context [sys_open os ?path ?flags =? -1] =>
                   destruct (sys_open os path flags =? -1); cbn
               end;
        try discriminate;
        destruct (sys_execvp_ok os); cbn; intros file args; try discriminate;
        intros [= <- _]; reflexivity. }
    destruct (exec_commands os c p).1 as [|code|file args| |] eqn:Hout;
      try contradiction.
    + left. rewrite H. reflexivity.
    + right. destruct H as [Hok ->].
      rewrite (Hexec file _ eq_refl). auto.
Qed.

Lemma child_sets_signals_then_redirects_witness :
  (exec_commands (sample_os 0 0) background_command (initial_process "")).1 =
    Exited 1 ∨
  (exec_commands (sample_os 0 0) background_command (initial_process "")).1 =
    Execed "sleep" (argv (arg_variables background_command)) ∧
  sys_execvp_ok (sample_os 0 0) = true.
Proof.
  pose proof (child_sets_signals_then_redirects
                (sample_os 0 0) background_command (initial_process "") "sleep")
    as H.
  destruct H as [_ H].
  - reflexivity.
  - vm_compute. reflexivity.
  - exact H.
Defined.

(** X13.  When the input file cannot be opened, the child prints
    "cannot open <path> for input" and ends with exit status 1; the
    output file is never opened and [execvp] is not called. *)
Theorem failed_input_redirection_ends_child
    (os : os_env) (c : command_line) (p : process) (path : string) :
  sys_fork os = 0 → input_file c = Some path →
  sys_open os path O_RDONLY = -1 →
  exec_commands os c p =
  (Exited 1,
   add_events p
     [Fork 0;
      Sigaction SIGINT (if is_background c then SIG_IGN else SIG_DFL) 0;
      Sigaction SIGTSTP SIG_IGN 0;
      Open path O_RDONLY None (-1);
      Printf ("cannot open " +:+ path +:+ " for input" +:+ LF);
      Fflush]).
Proof.
  intros Hfork Hin Hopen.
  unfold exec_commands, file_redirection, printf, fflush, mbind, M_bind.
  rewrite Hfork, Hin, Hopen. unfold add_events.
  destruct (is_background c); cbn; rewrite <- !app_assoc; reflexivity.
Qed.

Lemma failed_input_redirection_ends_child_witness :
  exec_commands
    {| env_HOME := None; sys_chdir := λ _, 0; sys_fork := 0;
       sys_wait_status := 0; sys_polls := []; sys_open := λ _ _, -1;
       sys_execvp_ok := true |}
    (command_of (parse_line 0 ("sort < missing > out" +:+ LF)))
    (initial_process "") =
  (Exited 1,
   add_events (initial_process "")
     [Fork 0; Sigaction SIGINT SIG_DFL 0; Sigaction SIGTSTP SIG_IGN 0;
      Open "missing" O_RDONLY None (-1);
      Printf ("cannot open missing for input" +:+ LF); Fflush]).
Proof.
  pose proof (failed_input_redirection_ends_child
                {| env_HOME := None; sys_chdir := λ _, 0; sys_fork := 0;
                   sys_wait_status := 0; sys_polls := []; sys_open := λ _ _, -1;
                   sys_execvp_ok := true |}
                (command_of (parse_line 0 ("sort < missing > out" +:+ LF)))
                (initial_process "") "missing") as H.
  apply H.
  - reflexivity.
  - vm_compute. reflexivity.
  - reflexivity.
Defined.

(** X14.  When [file_redirection] returns, standard input has been
    redirected exactly when the command is a background one or names an
    input file, and standard output exactly when it is a background one
    or names an output file.  Every descriptor it opened is valid, was
    duplicated and was closed. *)
Theorem file_redirection_targets
    (os : os_env) (c : command_line) (p p' : process) :
  file_redirection os c p = (Ret tt, p') →
  ∃ events,
    p' = add_events p events ∧
    existsb (dup2_onto STDIN_FILENO) events =
      is_background c || bool_decide (is_Some (input_file c)) ∧
    existsb (dup2_onto STDOUT_FILENO) events =
      is_background c || bool_decide (is_Some (output_file c)) ∧
    omap duplicated_descriptor events = omap opened_descriptor events ∧
    omap closed_descriptor events = omap opened_descriptor events ∧
    Forall (λ fd, fd ≠ -1) (omap opened_descriptor events).
Proof.
  destruct p as [status mode input events0].
  unfold file_redirection, printf, fflush, mbind, M_bind, add_events.
  destruct (is_background c), (input_file c) as [inp|],
    (output_file c) as [out|]; cbn;
    repeat match goal with
           | |- context [sys_open os ?path ?flags =? -1] =>
               destruct (Z.eqb_spec (sys_open os path flags) (-1)); cbn
           end;
    try discriminate; intros [= <-]; rewrite <- ?app_assoc; cbn [app];
    first [ eexists; split; [reflexivity|]
          | exists []; split; [cbn; rewrite app_nil_r; reflexivity|] ];
    cbn; repeat split; repeat constructor; assumption.
Qed.

Lemma file_redirection_targets_witness :
  ∃ events,
    (file_redirection (sample_os 0 0) background_command (initial_process "")).2
      = add_events (initial_process "") events ∧
    existsb (dup2_onto STDIN_FILENO) events = true ∧
    existsb (dup2_onto STDOUT_FILENO) events = true.
Proof.
  pose proof (file_redirection_targets
                (sample_os 0 0) background_command (initial_process "")
                (file_redirection (sample_os 0 0) background_command
                                  (initial_process "")).2) as H.
  destruct H as (events & H1 & H2 & H3 & _).
  - vm_compute. reflexivity.
  - exists events. split; [exact H1|]. split; [exact H2|exact H3].
Defined.

Lemma ends_as_shell_ret {A} (a : A) : ends_as_shell (mret a).
Proof. intros p. exact I. Qed.

Lemma ends_as_shell_bind {A B} (m : M A) (k : A → M B) :
  ends_as_shell m → (∀ a, ends_as_shell (k a)) → ends_as_shell (m ≫= k).
Proof.
  intros Hm Hk p. specialize (Hm p). unfold mbind, M_bind.
  destruct (m p) as [[a| | | |] p']; try exact Hm. apply Hk.
Qed.

Lemma ends_as_shell_emit (e : event) : ends_as_shell (emit e).
Proof. intros p. exact I. Qed.

Lemma ends_as_shell_exit_0 {A} : ends_as_shell (@exit A 0).
Proof. intros p. reflexivity. Qed.

Lemma ends_as_shell_undefined {A} (f : fault) : ends_as_shell (@undefined A f).
Proof. intros p. exact I. Qed.

Lemma ends_as_shell_get_latest_status : ends_as_shell get_latest_status.
Proof. intros p. exact I. Qed.

Lemma ends_as_shell_get_foreground_only : ends_as_shell get_foreground_only.
Proof. intros p. exact I. Qed.

Lemma ends_as_shell_get_unread : ends_as_shell get_unread.
Proof. intros p. exact I. Qed.

Lemma ends_as_shell_put_latest_status v : ends_as_shell (put_latest_status v).
Proof. intros p. exact I. Qed.

Lemma ends_as_shell_put_foreground_only v : ends_as_shell (put_foreground_only v).
Proof. intros p. exact I. Qed.

Lemma ends_as_shell_put_unread s : ends_as_shell (put_unread s).
Proof. intros p. exact I. Qed.

Create HintDb shell.
#[export] Hint Resolve ends_as_shell_ret ends_as_shell_emit ends_as_shell_exit_0
  ends_as_shell_undefined ends_as_shell_get_latest_status
  ends_as_shell_get_foreground_only ends_as_shell_get_unread
  ends_as_shell_put_latest_status ends_as_shell_put_foreground_only
  ends_as_shell_put_unread : shell.

Ltac shell_step :=
  match goal with
  | |- ends_as_shell (_ ≫= _) => apply ends_as_shell_bind; [|intros ?]
  | |- ends_as_shell (if ?b then _ else _) => destruct b
  | |- ends_as_shell (match ?x with _ => _ end) => destruct x
  | |- ends_as_shell _ => solve [auto with shell]
  end.

Lemma parse_input_ends_as_shell : ends_as_shell parse_input.
Proof.
  intros p. rewrite parse_input_unfold.
  destruct (fgets _ _) as [[input_buffer rest]|]; [|exact I].
  pose proof (parse_line_finishes (foreground_only p) input_buffer) as Hfin.
  cbn [fst]. destruct (parse_line _ _) as [[| |]|]; try exact I.
  contradiction.
Qed.

Lemma built_in_commands_ends_as_shell os c :
  ends_as_shell (built_in_commands os c).
Proof.
  unfold built_in_commands, arg_string, empty_heap_memory, printf, fflush,
    perror.
  repeat shell_step.
Qed.

Lemma background_loop_ends_as_shell polls : ends_as_shell (background_loop polls).
Proof.
  induction polls as [|[pid st] later IH]; cbn [background_loop];
    unfold printf, fflush; repeat shell_step.
Qed.

Lemma exec_commands_ends_as_shell os c :
  sys_fork os ≠ 0 → ends_as_shell (exec_commands os c).
Proof.
  intros Hparent.
  unfold exec_commands, manage_child_process, empty_heap_memory, printf,
    fflush, perror.
  destruct (Z.eqb_spec (sys_fork os) 0); [contradiction|].
  repeat shell_step.
Qed.

Lemma main_iteration_ends_as_shell os :
  sys_fork os ≠ 0 → ends_as_shell (main_iteration os).
Proof.
  intros Hparent.
  pose proof parse_input_ends_as_shell.
  pose proof (background_loop_ends_as_shell (sys_polls os)).
  unfold main_iteration, background_tracker.
  repeat shell_step; try apply built_in_commands_ends_as_shell;
    try apply exec_commands_ends_as_shell; assumption.
Qed.

Lemma handle_signal_tstp_ends_as_shell signo :
  ends_as_shell (handle_signal_tstp signo).
Proof. unfold handle_signal_tstp. repeat shell_step. Qed.

Lemma main_loop_ends_as_shell ticks :
  Forall in_parent ticks → ends_as_shell (main_loop ticks).
Proof.
  induction ticks as [|[os|] later IH]; intros Hticks; cbn [main_loop].
  - auto with shell.
  - apply Forall_cons in Hticks as [Hos Hlater].
    apply ends_as_shell_bind;
      [apply main_iteration_ends_as_shell, Hos|intros; apply IH, Hlater].
  - apply Forall_cons in Hticks as [_ Hlater].
    apply ends_as_shell_bind;
      [apply handle_signal_tstp_ends_as_shell|intros; apply IH, Hlater].
Qed.

(** X15.  The shell process itself (never the child side of a [fork])
    can only end by [exit(0)]: a run of [main] returns to its loop, exits
    with status 0, or runs into one of the undefined behaviours of the
    parser and dispatcher; it never exits with another status and never
    replaces itself by [execvp]. *)
Theorem shell_only_exits_with_status_0 (ticks : list tick) (input : string) :
  Forall in_parent ticks →
  match (main ticks (initial_process input)).1 with
  | Ret _ => True
  | Exited code => code = 0
  | Faulted f => f = NullDeref ∨ f = Indeterminate ∨ ∃ i, f = OutOfBounds i
  | Execed _ _ => False
  | NoFuel => False
  end.
Proof.
  intros Hticks.
  assert (H : ends_as_shell (main ticks)).
  { pose proof (main_loop_ends_as_shell ticks Hticks).
    unfold main. repeat shell_step. }
  specialize (H (initial_process input)). unfold shell_outcome in H.
  destruct (main ticks (initial_process input)).1 as [| | |[]|]; try exact H; eauto.
Qed.

Lemma shell_only_exits_with_status_0_witness :
  match (main [Pass (sample_os 4923 0); Tstp; Pass (sample_os 4924 0)]
              (initial_process ("ls" +:+ LF +:+ "exit" +:+ LF))).1 with
  | Exited code => code = 0
  | _ => False
  end.
Proof.
  pose proof (shell_only_exits_with_status_0
                [Pass (sample_os 4923 0); Tstp; Pass (sample_os 4924 0)]
                ("ls" +:+ LF +:+ "exit" +:+ LF)) as H.
  assert (Hparent : Forall in_parent
            [Pass (sample_os 4923 0); Tstp; Pass (sample_os 4924 0)]).
  { repeat constructor; vm_compute; discriminate. }
  specialize (H Hparent).
  destruct (main _ _).1 eqn:Hout; try exact H; vm_compute in Hout; discriminate.
Defined.

Lemma mode_is_emit (v : Z) (e : event) : preserves (mode_is v) (emit e).
Proof. intros p H. exact H. Qed.

Lemma mode_is_put_unread (v : Z) (s : string) :
  preserves (mode_is v) (put_unread s).
Proof. intros p H. exact H. Qed.

Lemma mode_is_put_latest_status (v st : Z) :
  preserves (mode_is v) (put_latest_status st).
Proof. intros p H. exact H. Qed.

#[export] Hint Resolve mode_is_emit mode_is_put_unread
  mode_is_put_latest_status : preserves.

Lemma background_loop_mode v polls :
  preserves (mode_is v) (background_loop polls).
Proof.
  induction polls as [|[pid st] later IH]; cbn [background_loop];
    unfold printf, fflush; repeat preserves_step.
Qed.

Lemma main_iteration_mode v os : preserves (mode_is v) (main_iteration os).
Proof.
  pose proof (background_loop_mode v (sys_polls os)).
  unfold main_iteration, background_tracker, parse_input, built_in_commands,
    exec_commands, manage_child_process, file_redirection, arg_string,
    empty_heap_memory, printf, fflush, perror.
  repeat preserves_step.
Qed.

Lemma handle_signal_tstp_toggles (signo : Z) (p : process) :
  (handle_signal_tstp signo p).1 = Ret tt ∧
  foreground_only (handle_signal_tstp signo p).2 =
    (if foreground_only p =? 0 then 1 else 0).
Proof.
  unfold handle_signal_tstp, mbind, M_bind. cbn.
  destruct (foreground_only p =? 0); auto.
Qed.

Lemma main_loop_mode (ticks : list tick) :
  ∀ p, foreground_only p = 0 ∨ foreground_only p = 1 →
  (foreground_only (main_loop ticks p).2 = 0 ∨
   foreground_only (main_loop ticks p).2 = 1) ∧
  ((main_loop ticks p).1 = Ret tt →
   foreground_only (main_loop ticks p).2 =
     (foreground_only p + Z.of_nat (tstp_count ticks)) mod 2).
Proof.
  induction ticks as [|[os|] later IH]; intros p Hp; cbn [main_loop tstp_count].
  - cbn. split; [exact Hp|]. intros _. destruct Hp as [-> | ->]; reflexivity.
  - pose proof (main_iteration_mode (foreground_only p) os p eq_refl) as Hmode.
    unfold mode_is in Hmode. unfold mbind, M_bind.
    destruct (main_iteration os p) as [[[]| | | |] p1]; cbn [fst snd] in *;
      try (split; [rewrite Hmode; exact Hp|discriminate]).
    rewrite <- Hmode. apply IH. rewrite Hmode. exact Hp.
  - pose proof (handle_signal_tstp_toggles SIGTSTP p) as [Hret Htoggle].
    unfold mbind, M_bind.
    destruct (handle_signal_tstp SIGTSTP p) as [[[]| | | |] p1];
      cbn [fst snd] in *; try discriminate.
    assert (Hp1 : foreground_only p1 = 0 ∨ foreground_only p1 = 1)
      by (rewrite Htoggle; destruct (foreground_only p =? 0); auto).
    destruct (IH p1 Hp1) as [Hrange Hparity]. split; [exact Hrange|].
    intros Hdone. rewrite (Hparity Hdone), Htoggle.
    destruct Hp as [-> | ->]; cbn [Z.eqb];
      rewrite Nat2Z.inj_succ; Z.div_mod_to_equations; lia.
Qed.

(** X16.  [foreground_only] is always 0 or 1, only the SIGTSTP handler
    changes it, and after a run that returns it is the number of SIGTSTP
    deliveries modulo 2: two deliveries in a row restore the mode. *)
Theorem foreground_only_counts_stop_signals (ticks : list tick) (input : string) :
  (foreground_only (main ticks (initial_process input)).2 = 0 ∨
   foreground_only (main ticks (initial_process input)).2 = 1) ∧
  ((main ticks (initial_process input)).1 = Ret tt →
   foreground_only (main ticks (initial_process input)).2 =
     Z.of_nat (tstp_count ticks) mod 2).
Proof.
  unfold main, mbind, M_bind. cbn [emit fst snd].
  match goal with
  | |- context [main_loop ticks ?q] =>
      apply (main_loop_mode ticks q); left; reflexivity
  end.
Qed.

Lemma foreground_only_counts_stop_signals_witness :
  foreground_only
    (main [Tstp; Pass (sample_os 4923 0); Tstp; Tstp]
          (initial_process ("sleep 1 &" +:+ LF))).2 = 1.
Proof.
  pose proof (foreground_only_counts_stop_signals
                [Tstp; Pass (sample_os 4923 0); Tstp; Tstp]
                ("sleep 1 &" +:+ LF)) as [_ H].
  rewrite H; [reflexivity|]. vm_compute. reflexivity.
Defined.

(** X17.  A pass of the main loop that reads a blank line or a comment
    line only reaps finished children and prints the prompt: nothing is
    dispatched and control returns to the loop. *)
Theorem comment_line_only_prompts
    (os : os_env) (p : process) (input_buffer rest : string) :
  fgets INPUT_LENGTH (unread p) = Some (input_buffer, rest) →
  blank_or_comment input_buffer = true →
  ∃ events,
    background_tracker os p = (Ret tt, add_events p events) ∧
    main_iteration os p = (Ret tt, prompted (add_events p events) rest).
Proof.
  intros Hfgets Hblank.
  destruct (background_loop_events (sys_polls os) p) as (events & Hrun & _).
  exists events. split; [exact Hrun|].
  unfold main_iteration, background_tracker, mbind at 1, M_bind at 1.
  rewrite Hrun. unfold mbind, M_bind. rewrite parse_input_unfold.
  cbn [add_events unread]. rewrite Hfgets.
  rewrite parse_line_tokens, Hblank. reflexivity.
Qed.

Lemma comment_line_only_prompts_witness :
  ∃ events,
    background_tracker (sample_os 4923 0)
      (initial_process ("# a comment" +:+ LF +:+ "ls" +:+ LF))
    = (Ret tt, add_events (initial_process ("# a comment" +:+ LF +:+ "ls" +:+ LF))
                          events) ∧
    main_iteration (sample_os 4923 0)
      (initial_process ("# a comment" +:+ LF +:+ "ls" +:+ LF))
    = (Ret tt,
       prompted (add_events (initial_process ("# a comment" +:+ LF +:+ "ls" +:+ LF))
                            events)
                ("ls" +:+ LF)).
Proof.
  pose proof (comment_line_only_prompts
                (sample_os 4923 0)
                (initial_process ("# a comment" +:+ LF +:+ "ls" +:+ LF))
                ("# a comment" +:+ LF) ("ls" +:+ LF)) as H.
  apply H.
  - vm_compute. reflexivity.
  - reflexivity.
Defined.

(** X18.  The cd built-in always returns to the loop.  It calls
    [perror("cd")] exactly when a path argument was given and [chdir] on
    it failed: a failing bare cd is silent.  It changes directory only to
    HOME (no argument) or to its first argument, ignoring any further
    ones. *)
Theorem cd_reports_only_a_failed_path
    (os : os_env) (c : command_line) (p : process) (path : string) :
  arg_variables c !! 0%nat = Some (Some "cd") →
  arg_count c = 1 ∨ arg_variables c !! 1%nat = Some (Some path) →
  ∃ events,
    built_in_commands os c p = (Ret 0, add_events p events) ∧
    (In (Perror "cd") events ↔ arg_count c ≠ 1 ∧ sys_chdir os path = -1) ∧
    (∀ dir ret, In (Chdir dir ret) events →
       ret = sys_chdir os dir ∧
       if arg_count c =? 1 then env_HOME os = Some dir else dir = path).
Proof.
  intros Hname Harg. destruct p as [status mode input events0].
  unfold built_in_commands, arg_string, empty_heap_memory, perror, mbind,
    M_bind, add_events.
  rewrite Hname. cbn.
  destruct (Z.eqb_spec (arg_count c) 1) as [Hone|Hmore].
  - destruct (env_HOME os) as [home|]; cbn; rewrite <- ?app_assoc; cbn [app];
      (eexists; split; [reflexivity|]); cbn; split.
    + split; [intros [|[|[|[]]]]; discriminate|intros [? _]; contradiction].
    + intros dir ret [|[H|[|[]]]]; try discriminate.
      injection H as <- <-. auto.
    + split; [intros [|[|[]]]; discriminate|intros [? _]; contradiction].
    + intros dir ret [|[|[]]]; discriminate.
  - destruct Harg as [?|Hpath]; [contradiction|]. rewrite Hpath. cbn.
    destruct (Z.eqb_spec (sys_chdir os path) (-1)) as [Hfail|Hok]; cbn;
      rewrite <- ?app_assoc; cbn [app];
      (eexists; split; [reflexivity|]); cbn; split.
    + split; [auto|intros _; auto].
    + intros dir ret [H|[|[|[]]]]; try discriminate. injection H as <- <-. auto.
    + split; [intros [|[|[]]]; discriminate|intros [_ ?]; contradiction].
    + intros dir ret [H|[|[]]]; try discriminate. injection H as <- <-. auto.
Qed.

Lemma cd_reports_only_a_failed_path_witness :
  ∃ events,
    built_in_commands (sample_os 0 0)
      (command_of (parse_line 0 ("cd /nonexistent ignored" +:+ LF)))
      (initial_process "") = (Ret 0, add_events (initial_process "") events) ∧
    (In (Perror "cd") events ↔
     arg_count (command_of (parse_line 0 ("cd /nonexistent ignored" +:+ LF))) ≠ 1 ∧
     sys_chdir (sample_os 0 0) "/nonexistent" = -1).
Proof.
  pose proof (cd_reports_only_a_failed_path
                (sample_os 0 0)
                (command_of (parse_line 0 ("cd /nonexistent ignored" +:+ LF)))
                (initial_process "") "/nonexistent") as H.
  destruct H as (events & H1 & H2 & _).
  - vm_compute. reflexivity.
  - right. vm_compute. reflexivity.
  - exists events. split; [exact H1|exact H2].
Defined.
